(** * Configuration model and CLI argument resolution of the CODEX pipeline

    A shallow embedding of [python/pipeline/codex/config.py] (classes
    [Config] and [CodexConfigV1]) and of the argument handling of
    [python/pipeline/codex/cli/processor.py] ([resolve_int_list_arg] and the
    dynamic defaults of [Processor.localhost]), with the properties the
    specification states about them.

    Python values are dynamically typed, so configuration entries are kept
    as values of the type [pyval] and every Python operator the code applies
    to them is written out below with the exception it raises on operands it
    does not support.  The semantics is that of Python 3, which the
    sources need ([processor.py] imports the package [codex.exec], a name
    Python 2 reserves).  Strings are sequences of code
    points below 256.  JSON numbers are modelled by their integer case:
    Python floats are not part of [pyval]. *)

From Stdlib Require Import ZArith List String Ascii Lia Bool.
From stdpp Require Import base tactics option list gmap strings pretty.

Local Open Scope string_scope.
Local Open Scope Z_scope.

(** ** Python values and exceptions *)

Local Set Warnings "-register-all".

Inductive pyval :=
| PNone
| PBool (b : bool)
| PInt (n : Z)
| PStr (s : string)
| PList (l : list pyval)
| PTuple (l : list pyval)
| PDict (d : list (string * pyval)).   (* entries in insertion order *)

(** The [raise ValueError(...)] sites of the two modules, and the
    ValueError of the built-ins they call. *)
Inductive value_error :=
| MissingConfigFile (filename : string)   (* _load_json_config *)
| MissingChannelNames                     (* _load_channel_names *)
| ChannelCountMismatch                    (* _validate, first check *)
| NotOneBasedIndex (k : string)           (* validate_one_based_index *)
| TileIndexOutOfRange                     (* get_tile_coordinates *)
| ChannelNotConfigured                    (* get_channel_coordinates *)
| NotInSequence                           (* list.index, str.index *)
| InvalidIntLiteral.                      (* int(str) *)

Inductive exn :=
| ValueError (site : value_error)
| TypeError
| KeyError (k : string)
| IndexError
| ZeroDivisionError
| AttributeError
| UnsupportedModeError.   (* raised by the tiling module, see below *)

Inductive res (A : Type) :=
| Ok (a : A)
| Raise (e : exn).
Arguments Ok {A} a.
Arguments Raise {A} e.

Definition res_bind {A B} (f : A → res B) (m : res A) : res B :=
  match m with
  | Ok a => f a
  | Raise e => Raise e
  end.

#[global] Instance res_ret : MRet res := @Ok.
#[global] Instance res_mbind : MBind res := @res_bind.
#[global] Instance res_fmap : FMap res :=
  λ A B f m, match m with Ok a => Ok (f a) | Raise e => Raise e end.

(** A [for] loop (or a list comprehension) whose body may raise: the
    elements are visited in order and the first exception ends the loop. *)
Fixpoint for_each {A B} (f : A → res B) (l : list A) : res (list B) :=
  match l with
  | [] => Ok []
  | x :: l' =>
      match f x with
      | Raise e => Raise e
      | Ok y =>
          match for_each f l' with
          | Raise e => Raise e
          | Ok ys => Ok (y :: ys)
          end
      end
  end.

(** Whether a computation returns rather than raises. *)
Definition returns {A} (m : res A) : bool :=
  match m with
  | Ok _ => true
  | Raise _ => false
  end.

(** ** The Python operators the two modules use *)

(** [isinstance(v, int)]: [bool] is a subclass of [int]. *)
Definition isinstance_int (v : pyval) : bool :=
  match v with
  | PInt _ | PBool _ => true
  | _ => false
  end.

(** The integer an [int] instance stands for in arithmetic. *)
Definition as_int (v : pyval) : option Z :=
  match v with
  | PInt n => Some n
  | PBool b => Some (if b then 1 else 0)
  | _ => None
  end.

(** [len(v)] *)
Definition py_len (v : pyval) : res Z :=
  match v with
  | PStr s => Ok (Z.of_nat (String.length s))
  | PList l | PTuple l => Ok (Z.of_nat (length l))
  | PDict d => Ok (Z.of_nat (length d))
  | PNone | PBool _ | PInt _ => Raise TypeError
  end.

(** The elements [for x in v] visits. *)
Definition py_iter (v : pyval) : res (list pyval) :=
  match v with
  | PList l | PTuple l => Ok l
  | PStr s => Ok ((λ a, PStr (String a EmptyString)) <$> list_ascii_of_string s)
  | PDict d => Ok ((λ kv, PStr kv.1) <$> d)
  | PNone | PBool _ | PInt _ => Raise TypeError
  end.

Fixpoint string_repeat (s : string) (n : nat) : string :=
  match n with
  | O => EmptyString
  | S n' => String.append s (string_repeat s n')
  end.

Fixpoint list_repeat {A} (l : list A) (n : nat) : list A :=
  match n with
  | O => []
  | S n' => l ++ list_repeat l n'
  end.

(** Sequence repetition [seq * n]: empty for [n <= 0]. *)
Definition py_repeat (v : pyval) (n : Z) : res pyval :=
  match v with
  | PStr s => Ok (PStr (string_repeat s (Z.to_nat n)))
  | PList l => Ok (PList (list_repeat l (Z.to_nat n)))
  | PTuple l => Ok (PTuple (list_repeat l (Z.to_nat n)))
  | _ => Raise TypeError
  end.

(** [a * b] *)
Definition py_mul (a b : pyval) : res pyval :=
  match as_int a, as_int b with
  | Some x, Some y => Ok (PInt (x * y))
  | Some x, None => py_repeat b x
  | None, Some y => py_repeat a y
  | None, None => Raise TypeError
  end.

(** [v - 1] *)
Definition py_sub1 (v : pyval) : res Z :=
  match as_int v with
  | Some x => Ok (x - 1)
  | None => Raise TypeError
  end.

(** [v <= 0]: ordering an [int] against anything but a number raises. *)
Definition py_le0 (v : pyval) : res bool :=
  match as_int v with
  | Some x => Ok (x <=? 0)
  | None => Raise TypeError
  end.

(** [i >= v] for an [int] [i] *)
Definition py_int_ge (i : Z) (v : pyval) : res bool :=
  match as_int v with
  | Some x => Ok (x <=? i)
  | None => Raise TypeError
  end.

(** [i != v] for an [int] [i]: never raises, unequal types differ. *)
Definition py_int_ne (i : Z) (v : pyval) : bool :=
  match as_int v with
  | Some x => negb (i =? x)
  | None => true
  end.

(** [i // v] and [i % v] for an [int] [i]: floor division, the remainder
    has the sign of the divisor; [Z.div] and [Z.modulo] are the same
    functions away from a zero divisor. *)
Definition py_int_floordiv (i : Z) (v : pyval) : res Z :=
  match as_int v with
  | Some x => if x =? 0 then Raise ZeroDivisionError else Ok (i / x)
  | None => Raise TypeError
  end.

Definition py_int_mod (i : Z) (v : pyval) : res Z :=
  match as_int v with
  | Some x => if x =? 0 then Raise ZeroDivisionError else Ok (i mod x)
  | None => Raise TypeError
  end.

(** [list(range(a, b))] on integers *)
Definition range (a b : Z) : list Z :=
  (λ k : nat, a + Z.of_nat k) <$> seq 0 (Z.to_nat (b - a)).

(** [range(v)]: the argument must be an [int] instance. *)
Definition py_range (v : pyval) : res (list Z) :=
  match as_int v with
  | Some n => Ok (range 0 n)
  | None => Raise TypeError
  end.

(** [range(a, b)] *)
Definition py_range2 (a b : pyval) : res (list Z) :=
  match as_int a, as_int b with
  | Some x, Some y => Ok (range x y)
  | _, _ => Raise TypeError
  end.

(** [t[i]] on a tuple, for a non-negative literal [i] *)
Definition py_tuple_get (t : list pyval) (i : nat) : res pyval :=
  match t !! i with
  | Some v => Ok v
  | None => Raise IndexError
  end.

(** [name == v] for a [str] [name] *)
Definition py_str_eq (name : string) (v : pyval) : bool :=
  match v with
  | PStr s => String.eqb name s
  | _ => false
  end.

(** [l.index(name)] on the elements of a list or tuple: the position of the
    first element equal to [name]. *)
Fixpoint list_index (name : string) (l : list pyval) : option nat :=
  match l with
  | [] => None
  | v :: l' =>
      if py_str_eq name v then Some O
      else S <$> list_index name l'
  end.

(** The truth value of [v] in a condition. *)
Definition py_truthy (v : pyval) : bool :=
  match v with
  | PNone => false
  | PBool b => b
  | PInt n => negb (n =? 0)
  | PStr s => negb (String.eqb s "")
  | PList l | PTuple l => negb (Nat.eqb (length l) 0)
  | PDict d => negb (Nat.eqb (length d) 0)
  end.

(** [d.get(k)] on the entries of a mapping. *)
Fixpoint assoc_get (k : string) (d : list (string * pyval)) : option pyval :=
  match d with
  | [] => None
  | (k', v) :: d' => if String.eqb k k' then Some v else assoc_get k d'
  end.

(** [a == b]: numbers by value ([bool] included), text, lists and tuples
    element by element, mappings entry by entry whatever their order. *)
Fixpoint py_eq (a b : pyval) {struct a} : bool :=
  let fix seq_eq (l1 l2 : list pyval) {struct l1} : bool :=
    match l1, l2 with
    | [], [] => true
    | x :: l1', y :: l2' => py_eq x y && seq_eq l1' l2'
    | _, _ => false
    end in
  let fix entries_in (d1 d2 : list (string * pyval)) {struct d1} : bool :=
    match d1 with
    | [] => true
    | (k, v) :: d1' =>
        match assoc_get k d2 with
        | Some v' => py_eq v v' && entries_in d1' d2
        | None => false
        end
    end in
  match a, b with
  | PNone, PNone => true
  | PBool _, (PBool _ | PInt _) | PInt _, (PBool _ | PInt _) =>
      match as_int a, as_int b with
      | Some x, Some y => x =? y
      | _, _ => false
      end
  | PStr s, PStr t => String.eqb s t
  | PList l1, PList l2 => seq_eq l1 l2
  | PTuple l1, PTuple l2 => seq_eq l1 l2
  | PDict d1, PDict d2 => Nat.eqb (length d1) (length d2) && entries_in d1 d2
  | _, _ => false
  end.

(** Whether [hash(v)] is defined: not for lists and mappings, nor for a
    tuple that holds one. *)
Fixpoint py_hashable (v : pyval) : bool :=
  match v with
  | PNone | PBool _ | PInt _ | PStr _ => true
  | PTuple l => forallb py_hashable l
  | PList _ | PDict _ => false
  end.

(** [l.index(v)] on the elements of a list or tuple, for any value. *)
Fixpoint list_index_value (v : pyval) (l : list pyval) : option nat :=
  match l with
  | [] => None
  | x :: l' => if py_eq x v then Some O else S <$> list_index_value v l'
  end.

(** ** Text: [str.strip()] and [int(str)] *)

Definition code_point (a : ascii) : Z := Z.of_nat (nat_of_ascii a).

(** The characters [str.strip()] removes: [str.isspace()] below 256. *)
Definition is_space (a : ascii) : bool :=
  let n := code_point a in
  ((9 <=? n) && (n <=? 13)) || ((28 <=? n) && (n <=? 32))
  || (n =? 133) || (n =? 160).

(** The characters [int(str)] skips at both ends: the C whitespace of
    [PyLong_FromString], and the two spaces above 127, which [int] turns
    into blanks first. *)
Definition is_int_space (a : ascii) : bool :=
  let n := code_point a in
  ((9 <=? n) && (n <=? 13)) || (n =? 32) || (n =? 133) || (n =? 160).

Fixpoint drop_while {A} (p : A → bool) (l : list A) : list A :=
  match l with
  | [] => []
  | x :: l' => if p x then drop_while p l' else l
  end.

Definition strip (s : string) : string :=
  string_of_list_ascii
    (rev (drop_while is_space (rev (drop_while is_space (list_ascii_of_string s))))).

Definition digit_value (a : ascii) : option Z :=
  let n := code_point a in
  if (48 <=? n) && (n <=? 57) then Some (n - 48) else None.

(** The digits of a base-10 literal, with single underscores allowed
    between digits; returns the value and the unread rest. *)
Fixpoint int_digits (acc : Z) (after_underscore : bool) (cs : list ascii)
  : option (Z * list ascii) :=
  match cs with
  | [] => if after_underscore then None else Some (acc, [])
  | c :: cs' =>
      match digit_value c with
      | Some d => int_digits (10 * acc + d) false cs'
      | None =>
          if after_underscore then None
          else if Ascii.eqb c "_" then int_digits acc true cs'
          else Some (acc, cs)
      end
  end.

(** Digits (at least one, the first not an underscore), then only
    trailing whitespace. *)
Definition int_unsigned (cs : list ascii) : option Z :=
  match cs with
  | [] => None
  | c :: _ =>
      match digit_value c with
      | None => None
      | Some _ =>
          match int_digits 0 false cs with
          | Some (n, rest) => if forallb is_int_space rest then Some n else None
          | None => None
          end
      end
  end.

(** [int(s)] for a [str]: base 10, optional sign. *)
Definition py_int (s : string) : res Z :=
  let cs := drop_while is_int_space (list_ascii_of_string s) in
  let r :=
    match cs with
    | c :: cs' =>
        if Ascii.eqb c "+" then int_unsigned cs'
        else if Ascii.eqb c "-" then Z.opp <$> int_unsigned cs'
        else int_unsigned cs
    | [] => int_unsigned cs
    end in
  match r with
  | Some n => Ok n
  | None => Raise (ValueError InvalidIntLiteral)
  end.

(** ** cli/processor.py *)

Module Processor.

(** [resolve_int_list_arg(arg)] *)
Definition resolve_int_list_arg (arg : pyval) : res pyval :=
  match arg with
  | PNone => Ok PNone
  | PBool _ | PInt _ => Ok (PList [arg])
  | PStr s => n ← py_int s; Ok (PList [PInt n])
  | PTuple t =>
      a ← py_tuple_get t 0;
      b ← py_tuple_get t 1;
      r ← py_range2 a b;
      Ok (PList (PInt <$> r))
  | PList _ | PDict _ => Ok arg
  end.

(** What [Processor.localhost] hands to [pipeline.PipelineConfig] for the
    arguments it resolves itself (lines 90-100); logging, the execution
    record and the pipeline run are outside this model. *)
Record resolved_args := {
  ra_region_indexes : pyval;
  ra_tile_indexes : pyval;
  ra_config_dir : pyval;
  ra_n_workers : pyval;
  ra_gpus : pyval
}.

Definition localhost
    (data_dir region_indexes tile_indexes config_dir n_workers gpus : pyval)
  : res resolved_args :=
  region_indexes ← resolve_int_list_arg region_indexes;
  tile_indexes ← resolve_int_list_arg tile_indexes;
  gpus ← resolve_int_list_arg gpus;
  let config_dir := match config_dir with PNone => data_dir | _ => config_dir end in
  n_workers ←
    match n_workers with
    | PNone =>
        match gpus with
        | PNone => Ok (PInt 1)
        | _ => PInt <$> py_len gpus
        end
    | _ => Ok n_workers
    end;
  Ok {| ra_region_indexes := region_indexes;
        ra_tile_indexes := tile_indexes;
        ra_config_dir := config_dir;
        ra_n_workers := n_workers;
        ra_gpus := gpus |}.

End Processor.

(** ** The tiling module

    [config.py] imports [codex.tiling] and uses two of its functions:
    [tiling.get_tiling_by_name(name)] and, on the object it returns,
    [coordinates_from_index(tile_index, w=..., h=...)], whose result is
    an [(x, y)] pair.  The module is taken as a parameter of the functions
    that call it. *)
Record tiling_module := {
  tiler : Type;
  get_tiling_by_name : pyval → res tiler;
  coordinates_from_index : tiler → Z → pyval → pyval → res (pyval * pyval)
}.

(** Modelled from the spec: the tiling module [codex.tiling], which is not
    among the sources.  The one built-in strategy is named "snake": row 0 is
    filled left to right, row 1 right to left, alternating; any other name
    fails with UnsupportedModeError. *)
Definition snake_coordinates_from_index (_ : unit) (tile_index : Z) (w h : pyval)
  : res (pyval * pyval) :=
  match as_int w with
  | None => Raise TypeError
  | Some w =>
      if w =? 0 then Raise ZeroDivisionError
      else
        let y := tile_index / w in
        let x := tile_index mod w in
        Ok (PInt (if Z.odd y then w - 1 - x else x), PInt y)
  end.

(** Modelled from the spec: [tiling.get_tiling_by_name], absent from the
    sources; "snake" is the one name it resolves. *)
Definition snake_get_tiling_by_name (name : pyval) : res unit :=
  if py_str_eq "snake" name then Ok () else Raise UnsupportedModeError.

(** Modelled from the spec: the tiling module with its single strategy. *)
Definition snake_tiling : tiling_module :=
  {| tiler := unit;
     get_tiling_by_name := snake_get_tiling_by_name;
     coordinates_from_index := snake_coordinates_from_index |}.

(** ** config.py *)

Module Config.

(** The mapping a [CodexConfigV1] wraps ([self._conf]). *)
Abbreviation conf := (gmap string pyval).

(** [self._conf[k]] *)
Definition getitem (c : conf) (k : string) : res pyval :=
  match c !! k with
  | Some v => Ok v
  | None => Raise (KeyError k)
  end.

(** *** Properties of [CodexConfigV1] *)

Definition channel_names (c : conf) : res pyval := getitem c "all_channel_names".
Definition n_cycles (c : conf) : res pyval := getitem c "num_cycles".
Definition n_channels_per_cycle (c : conf) : res Z :=
  v ← getitem c "channel_names"; py_len v.
Definition region_width (c : conf) : res pyval := getitem c "region_width".
Definition region_height (c : conf) : res pyval := getitem c "region_height".
Definition tiling_mode (c : conf) : res pyval := getitem c "tiling_mode".

(** [[i - 1 for i in self._conf['regIdx']]] *)
Definition region_indexes (c : conf) : res (list Z) :=
  v ← getitem c "regIdx";
  l ← py_iter v;
  for_each py_sub1 l.




Definition _n_actual_channels (c : conf) : res Z :=
  v ← channel_names c; py_len v.

Definition _n_expected_channels (c : conf) : res pyval :=
  n ← n_cycles c;
  m ← n_channels_per_cycle c;
  py_mul n (PInt m).

(** *** Methods of [Config] *)

Definition n_tiles_per_region (c : conf) : res pyval :=
  w ← region_width c;
  h ← region_height c;
  py_mul w h.

(** [channel_name in names] *)
Definition py_str_in (channel_name : string) (names : pyval) : res bool :=
  match names with
  | PList l | PTuple l => Ok (existsb (py_str_eq channel_name) l)
  | PStr s => Ok (bool_decide (is_Some (String.index 0 channel_name s)))
  | PDict d => Ok (existsb (λ kv, String.eqb channel_name kv.1) d)
  | PNone | PBool _ | PInt _ => Raise TypeError
  end.

(** [names.index(channel_name)] *)
Definition py_index (names : pyval) (channel_name : string) : res Z :=
  match names with
  | PList l | PTuple l =>
      match list_index channel_name l with
      | Some i => Ok (Z.of_nat i)
      | None => Raise (ValueError NotInSequence)
      end
  | PStr s =>
      match String.index 0 channel_name s with
      | Some i => Ok (Z.of_nat i)
      | None => Raise (ValueError NotInSequence)
      end
  | PDict _ | PNone | PBool _ | PInt _ => Raise AttributeError
  end.

Definition get_channel_coordinates (c : conf) (channel_name : string)
  : res (Z * Z) :=
  names ← channel_names c;
  found ← py_str_in channel_name names;
  if negb found then Raise (ValueError ChannelNotConfigured)
  else
    names ← channel_names c;
    i ← py_index names channel_name;
    n ← n_cycles c;
    cycle_index ← py_int_floordiv i n;
    n ← n_cycles c;
    ch_index ← py_int_mod i n;
    Ok (cycle_index, ch_index).

Record TileIndices := {
  region_index : Z;
  tile_index : Z;
  tile_x : pyval;
  tile_y : pyval
}.

Section WithTiling.
Variable tiling : tiling_module.

Definition get_tile_coordinates (c : conf) (tile_index : Z)
  : res (pyval * pyval) :=
  n ← n_tiles_per_region c;
  out_of_range ← py_int_ge tile_index n;
  if out_of_range : bool then Raise (ValueError TileIndexOutOfRange)
  else
    mode ← tiling_mode c;
    t ← get_tiling_by_name tiling mode;
    w ← region_width c;
    h ← region_height c;
    coordinates_from_index tiling t tile_index w h.

(** The inner loop of [get_tile_indices], for one region. *)
Definition region_tile_indices (c : conf) (ireg : Z) : res (list TileIndices) :=
  n ← n_tiles_per_region c;
  tiles ← py_range n;
  for_each
    (λ itile,
       xy ← get_tile_coordinates c itile;
       Ok {| region_index := ireg; tile_index := itile;
             tile_x := xy.1; tile_y := xy.2 |})
    tiles.

Definition get_tile_indices (c : conf) : res (list TileIndices) :=
  regs ← region_indexes c;
  per_region ← for_each (region_tile_indices c) regs;
  Ok (List.concat per_region).
End WithTiling.

(** *** Validation and loading *)

(** [validate_one_based_index(k, v)]; [v] defaults to [None], which stands
    for "look the value up under [k]". *)
Definition validate_one_based_index (c : conf) (k : string) (v : pyval)
  : res unit :=
  v ← match v with PNone => getitem c k | _ => Ok v end;
  nonpositive ← py_le0 v;
  if (nonpositive : bool) || negb (isinstance_int v)
  then Raise (ValueError (NotOneBasedIndex k))
  else Ok ().

Definition _validate (c : conf) : res conf :=
  actual ← _n_actual_channels c;
  expected ← _n_expected_channels c;
  if py_int_ne actual expected then Raise (ValueError ChannelCountMismatch)
  else
    _ ← for_each (λ k, validate_one_based_index c k PNone)
          ["driftCompReferenceCycle"; "drift_comp_channel";
           "bestFocusReferenceCycle"; "best_focus_channel"];
    regs ← getitem c "regIdx";
    regs ← py_iter regs;
    _ ← for_each (λ ireg, validate_one_based_index c "regIdx" ireg) regs;
    Ok c.

(** The three files [load] reads in a data directory, each absent or
    present; a JSON file holds an object. *)
Record data_dir := {
  Experiment_json : option conf;
  processingOptions_json : option conf;
  channelNames_txt : option (list string)   (* [fd.readlines()] *)
}.

Definition _load_json_config (file : option conf) (filename : string)
    (default : option conf) : res conf :=
  match file with
  | None =>
      match default with
      | None => Raise (ValueError (MissingConfigFile filename))
      | Some d => Ok d
      end
  | Some d => Ok d
  end.

Definition _load_experiment_config (d : data_dir) : res conf :=
  _load_json_config (Experiment_json d) "Experiment.json" None.

Definition _load_processing_options (d : data_dir) : res conf :=
  _load_json_config (processingOptions_json d) "processingOptions.json" (Some ∅).

(** [[l.strip() for l in lines if l.strip()]] *)
Definition stripped_lines (lines : list string) : pyval :=
  PList (PStr <$> (strip <$> filter (λ l, strip l ≠ "") lines)).

Definition _load_channel_names (d : data_dir) : res pyval :=
  match channelNames_txt d with
  | None => Raise (ValueError MissingChannelNames)
  | Some lines => Ok (stripped_lines lines)
  end.

(** [conf.update(other)]: the entries of [other] win. *)
Definition update (c other : conf) : conf := other ∪ c.

(** The mapping [load] builds and hands to [CodexConfigV1(conf)]: the
    experiment file, then the processing options, then the channel names,
    then the overrides (lines 230-234). *)
Definition load_conf (d : data_dir) (overrides : option conf) : res conf :=
  c ← _load_experiment_config d;
  opts ← _load_processing_options d;
  let c := update c opts in
  names ← _load_channel_names d;
  let c := update c {[ "all_channel_names" := names ]} in
  let c :=
    match overrides with
    | Some o => if decide (size o = 0%nat) then c else update c o
    | None => c
    end in
  Ok c.

(** [CodexConfigV1.load(data_dir, overrides)] *)
Definition load (d : data_dir) (overrides : option conf) : res conf :=
  c ← load_conf d overrides;
  _validate c.

(** *** Further properties of [CodexConfigV1] and [Config] *)

Definition n_z_planes (c : conf) : res pyval := getitem c "num_z_planes".
Definition tile_width (c : conf) : res pyval := getitem c "tile_width".
Definition tile_height (c : conf) : res pyval := getitem c "tile_height".
Definition overlap_x (c : conf) : res pyval := getitem c "tile_overlap_X".
Definition overlap_y (c : conf) : res pyval := getitem c "tile_overlap_Y".

Record TileDims := {
  cycles : pyval;
  z : pyval;
  channels : Z;
  height : pyval;
  width : pyval
}.

Definition tile_dims (c : conf) : res TileDims :=
  n ← n_cycles c;
  nz ← n_z_planes c;
  nch ← n_channels_per_cycle c;
  h ← tile_height c;
  w ← tile_width c;
  Ok {| cycles := n; z := nz; channels := nch; height := h; width := w |}.

(** [self._conf.get(k)] *)
Definition get (c : conf) (k : string) : pyval := default PNone (c !! k).

(** [channel_name in names] for a [channel_name] that is not a [str]. *)
Definition py_value_in (channel_name names : pyval) : res bool :=
  match names with
  | PList l | PTuple l => Ok (existsb (λ x, py_eq x channel_name) l)
  | PDict d =>
      (* the keys are text: a hashable value that is not text is none of them *)
      if py_hashable channel_name then Ok false else Raise TypeError
  | PStr _ | PNone | PBool _ | PInt _ => Raise TypeError
  end.

(** [names.index(channel_name)] for a [channel_name] that is not a [str]. *)
Definition py_value_index (names channel_name : pyval) : res Z :=
  match names with
  | PList l | PTuple l =>
      match list_index_value channel_name l with
      | Some i => Ok (Z.of_nat i)
      | None => Raise (ValueError NotInSequence)
      end
  | PStr _ => Raise TypeError
  | PDict _ | PNone | PBool _ | PInt _ => Raise AttributeError
  end.

(** [get_channel_coordinates] called with a value read from the mapping,
    which need not be text. *)
Definition get_channel_coordinates_value (c : conf) (channel_name : pyval)
  : res (Z * Z) :=
  match channel_name with
  | PStr s => get_channel_coordinates c s
  | _ =>
      names ← channel_names c;
      found ← py_value_in channel_name names;
      if negb found then Raise (ValueError ChannelNotConfigured)
      else
        names ← channel_names c;
        i ← py_value_index names channel_name;
        n ← n_cycles c;
        cycle_index ← py_int_floordiv i n;
        n ← n_cycles c;
        ch_index ← py_int_mod i n;
        Ok (cycle_index, ch_index)
  end.

(** The nucleus coordinates, the membrane coordinates when a membrane
    channel name is given, and the free-form parameters. *)
Definition cytometry_reference (c : conf)
  : res ((Z * Z) * option (Z * Z) * pyval) :=
  nuc_name ← getitem c "cytometry_nuclei_channel_name";
  let mem_name := get c "cytometry_membrane_channel_name" in
  let params := get c "cytometry_params" in
  nuc ← get_channel_coordinates_value c nuc_name;
  mem ← (if py_truthy mem_name
         then Some <$> get_channel_coordinates_value c mem_name
         else Ok None);
  Ok (nuc, mem, params).

Definition microscope_params (c : conf)
  : res (pyval * pyval * pyval * pyval * pyval * pyval) :=
  mag ← getitem c "magnification";
  na ← getitem c "numerical_aperture";
  res_axial_nm ← getitem c "z_pitch";
  res_lateral_nm ← getitem c "per_pixel_XY_resolution";
  objective_type ← getitem c "objectiveType";
  em_wavelength_nm ← getitem c "emission_wavelengths";
  Ok (mag, na, res_axial_nm, res_lateral_nm, objective_type, em_wavelength_nm).

End Config.
(** ** The index specification of the specification

    Follows the specification's words: the five documented shapes of an
    index specification are absent, an integer, text, an ordered pair and an
    ordered sequence of integers (a pair may carry further elements, which
    are ignored). *)
Definition documented_shape (v : pyval) : bool :=
  match v with
  | PNone | PInt _ | PStr _ => true
  | PTuple (PInt _ :: PInt _ :: _) => true
  | PList l => forallb (λ x, match x with PInt _ => true | _ => false end) l
  | _ => false
  end.

(** ** Example data

    A small experiment: 2 cycles of 2 channels, regions of 2 x 2 tiles,
    three regions, snake tiling. *)
Definition example_experiment : Config.conf :=
  list_to_map
    [("num_cycles", PInt 2);
     ("channel_names", PList [PStr "CH1"; PStr "CH2"]);
     ("region_width", PInt 2); ("region_height", PInt 2);
     ("tiling_mode", PStr "snake");
     ("regIdx", PList [PInt 1; PInt 2; PInt 3]);
     ("driftCompReferenceCycle", PInt 1); ("drift_comp_channel", PInt 1);
     ("bestFocusReferenceCycle", PInt 1); ("best_focus_channel", PInt 1)].

Definition example_channel_lines : list string :=
  ["DAPI"; "CD4 "; ""; " CD8"; "Ki67"].

(** A data directory holding [experiment] and the channel names [lines],
    without processing options. *)
Definition dir_of (experiment : Config.conf) (lines : list string)
  : Config.data_dir :=
  {| Config.Experiment_json := Some experiment;
     Config.processingOptions_json := None;
     Config.channelNames_txt := Some lines |}.

Definition example_dir : Config.data_dir :=
  dir_of example_experiment example_channel_lines.

(** The configuration [load] returns for [example_dir]. *)
Definition example_loaded : Config.conf :=
  <["all_channel_names" := Config.stripped_lines example_channel_lines]>
    example_experiment.

(** ** Work-unit order

    The (region, tile) pair that identifies a work unit, and the
    region-major, tile-minor enumeration of the pairs of a list of regions
    and a list of tiles. *)
Definition unit_key (u : Config.TileIndices) : Z * Z :=
  (Config.region_index u, Config.tile_index u).

Definition region_major (regs tiles : list Z) : list (Z * Z) :=
  List.concat ((λ r, (λ i, (r, i)) <$> tiles) <$> regs).

(** ** The channel-coordinate formula

    The two divisions of [get_channel_coordinates], for position [i] and
    the configured cycle count: [(i // n_cycles, i % n_cycles)]. *)
Definition divide_position (i : Z) (n_cycles : pyval) : res (Z * Z) :=
  cycle_index ← py_int_floordiv i n_cycles;
  ch_index ← py_int_mod i n_cycles;
  Ok (cycle_index, ch_index).

(** ** The index check on an integer

    What [validate_one_based_index] does with the integer [x] found for
    the field [k]. *)
Definition check_index (kx : string * Z) : res unit :=
  if kx.2 <=? 0 then Raise (ValueError (NotOneBasedIndex kx.1)) else Ok ().

(** The keys [microscope_params] reads, in its order. *)
Definition microscope_keys : list string :=
  ["magnification"; "numerical_aperture"; "z_pitch";
   "per_pixel_XY_resolution"; "objectiveType"; "emission_wavelengths"].

(** * Properties *)

(** ** Generic facts *)

Lemma bind_Ok {A B} (m : res A) (f : A → res B) (a : A) :
  m = Ok a → (m ≫= f) = f a.
Proof. intros ->. reflexivity. Qed.

Lemma bind_Raise {A B} (m : res A) (f : A → res B) (e : exn) :
  m = Raise e → (m ≫= f) = Raise e.
Proof. intros ->. reflexivity. Qed.

Lemma bind_inv_Ok {A B} (m : res A) (f : A → res B) (b : B) :
  (m ≫= f) = Ok b → ∃ a, m = Ok a ∧ f a = Ok b.
Proof. destruct m as [a|e]; [eauto|discriminate]. Qed.

(** Peels the binds of a computation that is known to return. *)
Ltac peel H :=
  repeat match type of H with
    | (_ ≫= _) = Ok _ =>
        let a := fresh "a" in
        let Ha := fresh "Ha" in
        apply bind_inv_Ok in H as (a & Ha & H)
    end.

Lemma for_each_Ok_length {A B} (f : A → res B) (l : list A) (r : list B) :
  for_each f l = Ok r → length r = length l.
Proof.
  revert r. induction l as [|x l IH]; intros r; simpl.
  - intros [= <-]. reflexivity.
  - destruct (f x); [|discriminate].
    destruct (for_each f l); [|discriminate].
    intros [= <-]. simpl. f_equal. apply IH. reflexivity.
Qed.

Lemma for_each_total {A B} (f : A → res B) (g : A → B) (l : list A) :
  (∀ x, x ∈ l → f x = Ok (g x)) → for_each f l = Ok (g <$> l).
Proof.
  induction l as [|x l IH]; intros H; simpl; [reflexivity|].
  rewrite H by apply list_elem_of_here.
  rewrite IH; [reflexivity|].
  intros y Hy. apply H. by apply list_elem_of_further.
Qed.

Lemma for_each_inv {A B} (f : A → res B) (l : list A) (r : list B) :
  for_each f l = Ok r → ∀ x, x ∈ l → ∃ y, f x = Ok y.
Proof.
  revert r. induction l as [|x l IH]; intros r; simpl.
  - intros _ y Hy. by apply elem_of_nil in Hy.
  - destruct (f x) as [y|] eqn:Hx; [|discriminate].
    destruct (for_each f l) as [ys|] eqn:Hl; [|discriminate].
    intros _ z Hz. apply elem_of_cons in Hz as [->|Hz]; [eauto|].
    by eapply IH.
Qed.

(** ** [range] *)

Lemma range_length (a b : Z) : length (range a b) = Z.to_nat (b - a).
Proof. unfold range. by rewrite length_fmap, length_seq. Qed.

Lemma range_empty (a b : Z) : b ≤ a → range a b = [].
Proof.
  intros H. unfold range.
  replace (Z.to_nat (b - a)) with O by lia. reflexivity.
Qed.

Lemma range_lookup (a b : Z) (k : nat) :
  Z.of_nat k < b - a → range a b !! k = Some (a + Z.of_nat k).
Proof.
  intros H. unfold range. rewrite list_lookup_fmap.
  rewrite lookup_seq_lt by lia. reflexivity.
Qed.

Lemma elem_of_range (a b x : Z) : x ∈ range a b ↔ a ≤ x < b.
Proof.
  unfold range. rewrite list_elem_of_fmap. split.
  - intros (k & -> & Hk). apply elem_of_seq in Hk. lia.
  - intros H. exists (Z.to_nat (x - a)). split; [lia|].
    apply elem_of_seq. lia.
Qed.

Lemma NoDup_range (a b : Z) : NoDup (range a b).
Proof.
  unfold range. apply NoDup_fmap_2; [|apply NoDup_seq].
  intros x y H. lia.
Qed.

(** ** [int(str)] reads back the decimal rendering of an integer *)

Lemma pretty_N_char_digit (x : N) :
  (x < 10)%N → digit_value (pretty_N_char x) = Some (Z.of_N x).
Proof.
  intros H.
  assert (x = 0 ∨ x = 1 ∨ x = 2 ∨ x = 3 ∨ x = 4 ∨ x = 5 ∨ x = 6 ∨ x = 7
          ∨ x = 8 ∨ x = 9)%N as Hx by lia.
  repeat destruct Hx as [->|Hx]; try subst x; reflexivity.
Qed.

Lemma digit_not_space (c : ascii) (d : Z) :
  digit_value c = Some d → is_int_space c = false.
Proof.
  unfold digit_value, is_int_space. generalize (code_point c). intros n.
  destruct (_ && _) eqn:E; [|discriminate]. intros _.
  apply andb_true_iff in E as [?%Z.leb_le ?%Z.leb_le].
  repeat (apply orb_false_iff; split); try apply andb_false_iff;
    rewrite ?Z.leb_gt, ?Z.eqb_neq; lia.
Qed.

Lemma digit_not_sign (c : ascii) (d : Z) :
  digit_value c = Some d → c ≠ "+"%char ∧ c ≠ "-"%char.
Proof. intros H. split; intros ->; discriminate. Qed.

(** The digits [pretty_N_go] puts in front of [s] are read back as the
    number they spell, most significant first. *)
Lemma int_digits_pretty_N_go (x : N) :
  (0 < x)%N → ∀ (s : string) (acc : Z) (u : bool),
  ∃ k : Z, 0 ≤ k ∧
    int_digits acc u (list_ascii_of_string (pretty_N_go x s))
    = int_digits (acc * 10 ^ k + Z.of_N x) false (list_ascii_of_string s).
Proof.
  induction (N.lt_wf_0 x) as [x _ IH]. intros Hx s acc u.
  rewrite pretty_N_go_step by done.
  assert (Hd : digit_value (pretty_N_char (x `mod` 10)%N)
               = Some (Z.of_N (x `mod` 10))).
  { apply pretty_N_char_digit. by apply N.mod_lt. }
  destruct (decide (x `div` 10 = 0)%N) as [Hz|Hz].
  - rewrite Hz, pretty_N_go_0. exists 1. split; [lia|].
    simpl. rewrite Hd. f_equal.
    rewrite (N.div_mod x 10) at 2 by done. rewrite Hz. lia.
  - destruct (IH (x `div` 10)%N) with
      (s := String (pretty_N_char (x `mod` 10)%N) s) (acc := acc) (u := u)
      as (k & Hk & ->).
    { apply N.div_lt; [done|lia]. }
    { by apply N.neq_0_lt_0. }
    exists (k + 1). split; [lia|].
    simpl. rewrite Hd. f_equal.
    rewrite Z.pow_add_r by lia.
    rewrite (N.div_mod x 10) at 3 by done.
    rewrite N2Z.inj_add, N2Z.inj_mul. simpl Z.of_N. lia.
Qed.

Lemma pretty_N_go_first_digit (x : N) :
  (0 < x)%N → ∀ s : string,
  ∃ c cs d, list_ascii_of_string (pretty_N_go x s) = c :: cs
            ∧ digit_value c = Some d.
Proof.
  induction (N.lt_wf_0 x) as [x _ IH]. intros Hx s.
  rewrite pretty_N_go_step by done.
  destruct (decide (x `div` 10 = 0)%N) as [Hz|Hz].
  - rewrite Hz, pretty_N_go_0. simpl. do 3 eexists. split; [reflexivity|].
    apply pretty_N_char_digit. by apply N.mod_lt.
  - apply IH; [|by apply N.neq_0_lt_0]. apply N.div_lt; [done|lia].
Qed.

Lemma int_unsigned_pretty_positive (p : positive) :
  int_unsigned (list_ascii_of_string (pretty p)) = Some (Z.pos p).
Proof.
  unfold pretty, pretty_positive, pretty, pretty_N.
  rewrite decide_False by done.
  destruct (pretty_N_go_first_digit (N.pos p) eq_refl "") as (c & cs & d & Hc & Hd).
  destruct (int_digits_pretty_N_go (N.pos p) eq_refl "" 0 false) as (k & _ & Hk).
  unfold int_unsigned. rewrite Hk. rewrite Hc, Hd. simpl. reflexivity.
Qed.

Lemma py_int_pretty (n : Z) : py_int (pretty n) = Ok n.
Proof.
  unfold py_int. destruct n as [|p|p]; [reflexivity|..].
  - change (pretty (Z.pos p)) with (pretty p).
    pose proof (int_unsigned_pretty_positive p) as Hu.
    destruct (list_ascii_of_string (pretty p)) as [|c cs] eqn:Hc; [discriminate|].
    assert (∃ d, digit_value c = Some d) as [d Hd].
    { unfold int_unsigned in Hu. destruct (digit_value c); [eauto|discriminate]. }
    cbn [drop_while]. rewrite (digit_not_space c d Hd).
    destruct (digit_not_sign c d Hd) as [Hplus%Ascii.eqb_neq Hminus%Ascii.eqb_neq].
    by rewrite Hplus, Hminus, Hu.
  - change (pretty (Z.neg p)) with (String "-" (pretty p)). simpl.
    by rewrite int_unsigned_pretty_positive.
Qed.

(** ** The index resolver *)

Section Resolver.
Import Processor.

Lemma resolve_tuple_ints (a b : Z) (rest : list pyval) :
  resolve_int_list_arg (PTuple (PInt a :: PInt b :: rest))
  = Ok (PList (PInt <$> range a b)).
Proof. reflexivity. Qed.

Lemma resolve_text (s : string) :
  resolve_int_list_arg (PStr s)
  = match py_int s with
    | Ok n => Ok (PList [PInt n])
    | Raise e => Raise e
    end.
Proof. unfold resolve_int_list_arg. by destruct (py_int s). Qed.

(** The examples of the specification's testable properties. *)
Example resolve_examples :
  resolve_int_list_arg (PTuple [PInt 3; PInt 3]) = Ok (PList [])
  ∧ resolve_int_list_arg (PTuple [PInt 1; PInt 4])
    = Ok (PList [PInt 1; PInt 2; PInt 3])
  ∧ resolve_int_list_arg (PInt 5) = Ok (PList [PInt 5])
  ∧ resolve_int_list_arg (PStr "7") = Ok (PList [PInt 7])
  ∧ resolve_int_list_arg PNone = Ok PNone
  ∧ resolve_int_list_arg (PList [PInt 2; PInt 2; PInt 9])
    = Ok (PList [PInt 2; PInt 2; PInt 9]).
Proof. repeat split. Qed.

(** C6: the resolver is a function of its argument and, shape by shape:
    [None] gives [None]; an integer [n] gives [[n]]; text gives [[int(s)]]
    (in particular the decimal rendering of any integer [n] gives [[n]]);
    a tuple starting with the integers [a], [b] gives [[a, ..., b-1]]
    whatever follows them, which is empty when [b <= a]; a list of
    integers is returned as it is, duplicates and order included. *)
Theorem resolve_int_list_arg_shapes :
  resolve_int_list_arg PNone = Ok PNone
  ∧ (∀ n : Z, resolve_int_list_arg (PInt n) = Ok (PList [PInt n]))
  ∧ (∀ (s : string) (n : Z),
       py_int s = Ok n → resolve_int_list_arg (PStr s) = Ok (PList [PInt n]))
  ∧ (∀ n : Z, resolve_int_list_arg (PStr (pretty n)) = Ok (PList [PInt n]))
  ∧ (∀ (a b : Z) (rest : list pyval),
       resolve_int_list_arg (PTuple (PInt a :: PInt b :: rest))
       = Ok (PList (PInt <$> range a b))
       ∧ length (range a b) = Z.to_nat (b - a)
       ∧ (∀ k : nat, Z.of_nat k < b - a →
                     range a b !! k = Some (a + Z.of_nat k))
       ∧ (b ≤ a → range a b = []))
  ∧ (∀ l : list Z,
       resolve_int_list_arg (PList (PInt <$> l)) = Ok (PList (PInt <$> l)))
  ∧ (∀ (v : pyval) (r1 r2 : res pyval),
       resolve_int_list_arg v = r1 → resolve_int_list_arg v = r2 → r1 = r2).
Proof.
  split; [reflexivity|].
  split; [reflexivity|].
  split. { intros s n H. by rewrite resolve_text, H. }
  split. { intros n. by rewrite resolve_text, py_int_pretty. }
  split.
  { intros a b rest. split; [apply resolve_tuple_ints|].
    split; [apply range_length|].
    split; [intros k; apply range_lookup|apply range_empty]. }
  split; [reflexivity|].
  intros v r1 r2 <- <-. reflexivity.
Qed.

(** C2, counterexample: a mapping and a list of names are none of the
    five documented shapes, and the resolver returns them. *)
Lemma resolve_other_shape_returned :
  documented_shape (PDict [("a", PInt 1)]) = false
  ∧ resolve_int_list_arg (PDict [("a", PInt 1)]) = Ok (PDict [("a", PInt 1)])
  ∧ documented_shape (PList [PStr "a"; PStr "b"]) = false
  ∧ resolve_int_list_arg (PList [PStr "a"; PStr "b"])
    = Ok (PList [PStr "a"; PStr "b"]).
Proof. repeat split. Qed.

(** C2, amended: the resolver makes no check of its own on an input
    outside the documented shapes.  A list or a mapping is returned
    unchanged; a [bool] is wrapped like an integer; only a tuple can fail:
    with IndexError when it has fewer than two elements, with the
    TypeError of [range] when one of its first two elements is not an
    integer. *)
Theorem resolve_undocumented_shape (v : pyval) :
  documented_shape v = false →
  match v with
  | PList _ | PDict _ => resolve_int_list_arg v = Ok v
  | PBool _ => resolve_int_list_arg v = Ok (PList [v])
  | PTuple t =>
      (length t < 2)%nat ∧ resolve_int_list_arg v = Raise IndexError
      ∨ (∃ a b rest, t = a :: b :: rest
                     ∧ (as_int a = None ∨ as_int b = None)
                     ∧ resolve_int_list_arg v = Raise TypeError)
      ∨ (∃ a b rest, t = a :: b :: rest
                     ∧ (∃ x y, as_int a = Some x ∧ as_int b = Some y
                        ∧ resolve_int_list_arg v = Ok (PList (PInt <$> range x y))))
  | PNone | PInt _ | PStr _ => False
  end.
Proof.
  destruct v as [|b|n|s|l|t|d]; simpl; try discriminate; try reflexivity.
  intros _. destruct t as [|a [|b rest]].
  - left. split; [simpl; lia|reflexivity].
  - left. split; [simpl; lia|reflexivity].
  - right. destruct (as_int a) as [x|] eqn:Ha.
    + destruct (as_int b) as [y|] eqn:Hb.
      * right. exists a, b, rest. split; [reflexivity|].
        exists x, y. repeat split; try done.
        unfold resolve_int_list_arg; simpl. unfold py_range2.
        by rewrite Ha, Hb.
      * left. exists a, b, rest. split; [reflexivity|]. split; [by right|].
        unfold resolve_int_list_arg; simpl. unfold py_range2.
        by rewrite Ha, Hb.
    + left. exists a, b, rest. split; [reflexivity|]. split; [by left|].
      unfold resolve_int_list_arg; simpl. unfold py_range2.
      by rewrite Ha.
Qed.

Lemma resolve_undocumented_shape_witness :
  documented_shape (PDict [("a", PInt 1)]) = false
  ∧ resolve_int_list_arg (PDict [("a", PInt 1)]) = Ok (PDict [("a", PInt 1)]).
Proof.
  split; [reflexivity|].
  apply (resolve_undocumented_shape (PDict [("a", PInt 1)])). reflexivity.
Defined.

(** C9: with no explicit worker count ([n_workers] is [None]), once the
    three index arguments resolve, [localhost] passes on as worker count
    the length of the resolved GPU list when there is one, and 1 when
    [gpus] resolves to [None] (which is what an absent [gpus] does). *)
Theorem localhost_default_n_workers
    (data_dir region_indexes tile_indexes config_dir gpus : pyval)
    (r t g : pyval) :
  resolve_int_list_arg region_indexes = Ok r →
  resolve_int_list_arg tile_indexes = Ok t →
  resolve_int_list_arg gpus = Ok g →
  (g = PNone →
     ra_n_workers <$>
       localhost data_dir region_indexes tile_indexes config_dir PNone gpus
     = Ok (PInt 1))
  ∧ (∀ l : list pyval, g = PList l →
     ra_n_workers <$>
       localhost data_dir region_indexes tile_indexes config_dir PNone gpus
     = Ok (PInt (Z.of_nat (length l))))
  ∧ (gpus = PNone → g = PNone).
Proof.
  intros Hr Ht Hg. unfold localhost. rewrite Hr, Ht, Hg. simpl.
  split; [by intros ->|]. split; [by intros l ->|].
  intros ->. by injection Hg.
Qed.

Lemma localhost_default_n_workers_witness :
  ra_n_workers <$>
    localhost (PStr "/data") PNone PNone PNone PNone (PList [PInt 0; PInt 2])
  = Ok (PInt 2)
  ∧ ra_n_workers <$>
      localhost (PStr "/data") PNone PNone PNone PNone PNone
    = Ok (PInt 1).
Proof.
  split.
  - exact (proj1 (proj2 (localhost_default_n_workers (PStr "/data") PNone PNone
             PNone (PList [PInt 0; PInt 2]) PNone PNone (PList [PInt 0; PInt 2])
             eq_refl eq_refl eq_refl)) [PInt 0; PInt 2] eq_refl).
  - exact (proj1 (localhost_default_n_workers (PStr "/data") PNone PNone PNone
             PNone PNone PNone PNone eq_refl eq_refl eq_refl) eq_refl).
Defined.

End Resolver.

(** ** Configuration: lookups and validation *)

Section ConfigFacts.
Import Config.

Lemma getitem_insert_ne (c : conf) (k k' : string) (v : pyval) :
  k' ≠ k → getitem (<[k' := v]> c) k = getitem c k.
Proof. intros H. unfold getitem. by rewrite lookup_insert_ne. Qed.

Lemma for_each_ext {A B} (f g : A → res B) (l : list A) :
  (∀ x, f x = g x) → for_each f l = for_each g l.
Proof. intros H. induction l as [|x l IH]; simpl; [done|]. by rewrite H, IH. Qed.

Lemma py_str_eq_true (name : string) (v : pyval) :
  py_str_eq name v = true ↔ v = PStr name.
Proof.
  destruct v; simpl; try (split; [discriminate|discriminate]).
  rewrite String.eqb_eq. split; [by intros ->|by intros [= ->]].
Qed.

(** A value that iterates is not an [int] instance. *)
Lemma py_iter_not_int (v : pyval) (l : list pyval) :
  py_iter v = Ok l → as_int v = None.
Proof. by destruct v. Qed.

(** What passing [validate_one_based_index] means for an explicit
    value: it is an [int] instance above zero. *)
Lemma validate_one_based_index_Ok (c : conf) (k : string) (v : pyval) :
  v ≠ PNone →
  validate_one_based_index c k v = Ok () ↔ ∃ x, as_int v = Some x ∧ 0 < x.
Proof.
  intros Hv. unfold validate_one_based_index.
  assert ((match v with PNone => getitem c k | _ => Ok v end) = Ok v) as ->.
  { by destruct v. }
  simpl. unfold py_le0. split.
  - destruct (as_int v) as [x|] eqn:Hx; [|discriminate]. simpl.
    destruct (x <=? 0) eqn:Hle; [discriminate|].
    intros _. exists x. split; [done|]. by apply Z.leb_gt.
  - intros (x & Hx & Hpos). rewrite Hx. simpl.
    assert ((x <=? 0) = false) as -> by (apply Z.leb_gt; lia).
    destruct v; simpl in *; try discriminate; reflexivity.
Qed.

Lemma validate_one_based_index_insert_ne (c : conf) (k k' : string) (v m : pyval) :
  k' ≠ k →
  validate_one_based_index (<[k' := m]> c) k v = validate_one_based_index c k v.
Proof.
  intros H. unfold validate_one_based_index.
  destruct v; try reflexivity. by rewrite getitem_insert_ne.
Qed.

(** [_validate] returns the configuration it was given. *)
Lemma _validate_Ok_same (c c' : conf) : _validate c = Ok c' → c' = c.
Proof.
  unfold _validate. intros H. peel H.
  destruct (py_int_ne _ _); [discriminate|]. peel H. by injection H.
Qed.

(** What a validated configuration is known to satisfy. *)
Lemma _validate_inv (c c' : conf) :
  _validate c = Ok c' →
  (∃ (L : Z) (e : pyval),
      _n_actual_channels c = Ok L ∧ _n_expected_channels c = Ok e
      ∧ as_int e = Some L)
  ∧ (∃ (regv : pyval) (regs : list pyval),
        getitem c "regIdx" = Ok regv ∧ py_iter regv = Ok regs
        ∧ ∀ r, r ∈ regs → ∃ x, as_int r = Some x ∧ 0 < x).
Proof.
  unfold _validate. intros H. peel H.
  destruct (py_int_ne a a0) eqn:Hne; [discriminate|]. peel H.
  split.
  - exists a, a0. repeat split; try done.
    unfold py_int_ne in Hne. destruct (as_int a0) as [x|]; [|discriminate].
    apply negb_false_iff, Z.eqb_eq in Hne. by subst.
  - exists a2, a3. repeat split; try done.
    intros r Hr.
    destruct (for_each_inv _ _ _ Ha4 r Hr) as ([] & Hok).
    assert (r = PNone ∨ r ≠ PNone) as [->|Hnone]
      by (destruct r; auto; right; discriminate).
    + exfalso. unfold validate_one_based_index in Hok.
      rewrite Ha2 in Hok. simpl in Hok. unfold py_le0 in Hok.
      by rewrite (py_iter_not_int _ _ Ha3) in Hok.
    + by apply (validate_one_based_index_Ok c "regIdx").
Qed.
End ConfigFacts.

(** ** Loading *)

Section Loading.
Import Config.

Lemma load_Ok_validated (d : data_dir) (overrides : option conf) (c : conf) :
  load d overrides = Ok c → load_conf d overrides = Ok c ∧ _validate c = Ok c.
Proof.
  unfold load. intros H. peel H.
  pose proof (_validate_Ok_same _ _ H) as ->. by split.
Qed.

Lemma _validate_returns (c : conf) : returns (_validate c) = true → _validate c = Ok c.
Proof.
  destruct (_validate c) as [c'|] eqn:H; [|discriminate].
  intros _. by rewrite (_validate_Ok_same _ _ H).
Qed.

(** Loading a directory without processing options and overrides. *)
Lemma load_conf_dir_of (e : conf) (lines : list string) :
  load_conf (dir_of e lines) None
  = Ok (<["all_channel_names" := stripped_lines lines]> e).
Proof.
  unfold load_conf, dir_of, update. simpl. f_equal.
  by rewrite (left_id_L ∅ (∪)), insert_union_singleton_l.
Qed.

Lemma load_dir_of (e : conf) (lines : list string) :
  load (dir_of e lines) None
  = _validate (<["all_channel_names" := stripped_lines lines]> e).
Proof. unfold load. by rewrite load_conf_dir_of. Qed.

(** The channel-count check of [_validate], on any mapping. *)
Lemma _validate_channel_count (c : conf) (L : Z) (e : pyval) :
  _n_actual_channels c = Ok L →
  _n_expected_channels c = Ok e →
  as_int e ≠ Some L →
  _validate c = Raise (ValueError ChannelCountMismatch).
Proof.
  intros HL He Hne. unfold _validate. rewrite HL, He. simpl.
  unfold py_int_ne. destruct (as_int e) as [x|]; [|reflexivity].
  destruct (L =? x) eqn:E; [|reflexivity].
  apply Z.eqb_eq in E. congruence.
Qed.

(** C4: when the length [L] of the loaded channel-name list differs from
    [n_cycles * n_channels_per_cycle], [load] raises the ValueError of the
    channel-count check instead of returning; and a configuration that
    [load] returns has a channel-name list of exactly that length. *)
Theorem load_checks_channel_count (d : data_dir) (overrides : option conf) :
  (∀ (c : conf) (L n m : Z),
      load_conf d overrides = Ok c →
      _n_actual_channels c = Ok L →
      n_cycles c = Ok (PInt n) →
      n_channels_per_cycle c = Ok m →
      L ≠ n * m →
      load d overrides = Raise (ValueError ChannelCountMismatch))
  ∧ (∀ c : conf,
      load d overrides = Ok c →
      ∃ (names nv : pyval) (L n m : Z),
        channel_names c = Ok names ∧ py_len names = Ok L
        ∧ n_cycles c = Ok nv ∧ as_int nv = Some n
        ∧ n_channels_per_cycle c = Ok m
        ∧ L = n * m).
Proof.
  split.
  - intros c L n m Hc HL Hn Hm Hne. unfold load. rewrite Hc. simpl.
    apply (_validate_channel_count c L (PInt (n * m))); [done| |].
    + unfold _n_expected_channels. by rewrite Hn, Hm.
    + simpl. congruence.
  - intros c [_ Hv]%load_Ok_validated.
    apply _validate_inv in Hv as [(L & e & HL & He & Hint) _].
    unfold _n_actual_channels in HL. peel HL.
    unfold _n_expected_channels in He. peel He.
    unfold py_mul in He. simpl in He.
    destruct (as_int a0) as [x|] eqn:Hx.
    + injection He as <-. simpl in Hint. injection Hint as <-.
      by exists a, a0, (x * a1), x, a1.
    + unfold py_repeat in He.
      destruct a0; simpl in *; try discriminate;
        injection He as <-; discriminate.
Qed.

Lemma load_checks_channel_count_witness :
  load (dir_of example_experiment ["DAPI"; "CD4"; "CD8"]) None
  = Raise (ValueError ChannelCountMismatch)
  ∧ ∃ c, load example_dir None = Ok c
         ∧ channel_names c
           = Ok (PList [PStr "DAPI"; PStr "CD4"; PStr "CD8"; PStr "Ki67"])
         ∧ n_cycles c = Ok (PInt 2) ∧ n_channels_per_cycle c = Ok 2.
Proof.
  split.
  - apply (proj1 (load_checks_channel_count
                    (dir_of example_experiment ["DAPI"; "CD4"; "CD8"]) None)
             _ 3 2 2 (load_conf_dir_of _ _)); [by vm_compute..|lia].
  - exists (<["all_channel_names" := stripped_lines example_channel_lines]>
              example_experiment).
    split; [|by vm_compute].
    unfold example_dir. rewrite load_dir_of.
    apply _validate_returns. by vm_compute.
Defined.
End Loading.

(** ** The tiling mode is read by coordinate queries only *)

Section TilingMode.
Import Config.

Lemma _validate_insert_tiling_mode (c : conf) (m : pyval) :
  _validate (<["tiling_mode" := m]> c)
  = (λ c', <["tiling_mode" := m]> c') <$> _validate c.
Proof.
  unfold _validate, _n_actual_channels, _n_expected_channels, channel_names,
    n_cycles, n_channels_per_cycle.
  rewrite !getitem_insert_ne by done.
  destruct (getitem c "all_channel_names" ≫= _) as [L|]; [|reflexivity].
  destruct (getitem c "num_cycles" ≫= _) as [e|]; [|reflexivity].
  cbn [mbind res_mbind res_bind].
  destruct (py_int_ne L e); [reflexivity|].
  cbn [for_each].
  rewrite !validate_one_based_index_insert_ne by done.
  repeat (destruct (validate_one_based_index c _ PNone); [|reflexivity]).
  cbn [mbind res_mbind res_bind].
  destruct (getitem c "regIdx") as [regv|]; [|reflexivity].
  cbn [mbind res_mbind res_bind].
  destruct (py_iter regv) as [regs|]; [|reflexivity].
  cbn [mbind res_mbind res_bind].
  rewrite (for_each_ext _ (λ ireg, validate_one_based_index c "regIdx" ireg)).
  - by destruct (for_each _ regs).
  - intros x. by apply validate_one_based_index_insert_ne.
Qed.

Lemma load_conf_override_tiling_mode (d : data_dir) (overrides : option conf)
    (m : pyval) :
  load_conf d (Some (<["tiling_mode" := m]> (default ∅ overrides)))
  = (λ c', <["tiling_mode" := m]> c') <$> load_conf d overrides.
Proof.
  unfold load_conf.
  destruct (_load_experiment_config d) as [e|]; [|reflexivity].
  destruct (_load_processing_options d) as [o|]; [|reflexivity].
  destruct (_load_channel_names d) as [names|]; [|reflexivity].
  cbn [mbind res_mbind res_bind fmap res_fmap]. f_equal.
  rewrite decide_False.
  2:{ intros H%map_size_empty_inv.
      by apply (insert_non_empty (default ∅ overrides) "tiling_mode" m). }
  unfold update. destruct overrides as [ov|]; simpl.
  - case_decide as Hsz.
    + apply map_size_empty_inv in Hsz as ->.
      by rewrite <-insert_union_l, (left_id_L ∅ (∪)).
    + by rewrite <-insert_union_l.
  - by rewrite <-insert_union_l, (left_id_L ∅ (∪)).
Qed.

(** C3, counterexample: an experiment whose tiling mode is a name the
    tiling module does not know loads without error. *)
Lemma load_accepts_unknown_tiling_mode :
  get_tiling_by_name snake_tiling (PStr "spiral") = Raise UnsupportedModeError
  ∧ ∃ c, load (dir_of (<["tiling_mode" := PStr "spiral"]> example_experiment)
                 example_channel_lines) None = Ok c
         ∧ tiling_mode c = Ok (PStr "spiral").
Proof.
  split; [reflexivity|].
  exists (<["all_channel_names" := stripped_lines example_channel_lines]>
            (<["tiling_mode" := PStr "spiral"]> example_experiment)).
  split; [|by vm_compute].
  rewrite load_dir_of. apply _validate_returns. by vm_compute.
Qed.

(** C3, amended: the tiling strategy is resolved from its configured name
    by each tile-coordinate query, not by [load].  [load] never reads the
    tiling mode: validation gives the same outcome whatever value the mode
    is replaced by, and a configuration that loads still loads when the mode
    is overridden by any value at all.  The failure of the tiling module on
    an unknown name surfaces in [get_tile_coordinates], for a tile index
    below [n_tiles_per_region]. *)
Theorem tiling_mode_resolved_by_queries :
  (∀ (c : conf) (m : pyval),
      _validate (<["tiling_mode" := m]> c)
      = (λ c', <["tiling_mode" := m]> c') <$> _validate c)
  ∧ (∀ (d : data_dir) (overrides : option conf) (m : pyval) (c : conf),
      load d overrides = Ok c →
      load d (Some (<["tiling_mode" := m]> (default ∅ overrides)))
      = Ok (<["tiling_mode" := m]> c))
  ∧ (∀ (tiling : tiling_module) (c : conf) (tile_index : Z)
       (n mode : pyval) (e : exn),
      n_tiles_per_region c = Ok n →
      py_int_ge tile_index n = Ok false →
      tiling_mode c = Ok mode →
      get_tiling_by_name tiling mode = Raise e →
      get_tile_coordinates tiling c tile_index = Raise e).
Proof.
  split; [exact _validate_insert_tiling_mode|]. split.
  - intros d overrides m c H. unfold load in *.
    rewrite load_conf_override_tiling_mode.
    destruct (load_conf d overrides) as [c0|]; [|discriminate].
    cbn [mbind res_mbind res_bind fmap res_fmap] in *.
    rewrite _validate_insert_tiling_mode, H.
    pose proof (_validate_Ok_same _ _ H) as ->. reflexivity.
  - intros tiling c tile_index n mode e Hn Hge Hmode He.
    unfold get_tile_coordinates.
    rewrite Hn; simpl. rewrite Hge; simpl. rewrite Hmode; simpl. by rewrite He.
Qed.

Lemma tiling_mode_resolved_by_queries_witness :
  (∃ c, load example_dir (Some {[ "tiling_mode" := PStr "spiral" ]}) = Ok c)
  ∧ get_tile_coordinates snake_tiling
      (<["tiling_mode" := PStr "spiral"]> example_experiment) 0
    = Raise UnsupportedModeError.
Proof.
  split.
  - eexists.
    apply (proj1 (proj2 tiling_mode_resolved_by_queries) example_dir None
             (PStr "spiral")
             (<["all_channel_names" := stripped_lines example_channel_lines]>
                example_experiment)).
    unfold example_dir. rewrite load_dir_of.
    apply _validate_returns. by vm_compute.
  - apply (proj2 (proj2 tiling_mode_resolved_by_queries) snake_tiling
             (<["tiling_mode" := PStr "spiral"]> example_experiment) 0
             (PInt 4) (PStr "spiral")); by vm_compute.
Defined.

(** C8: a tile index at or above [n_tiles_per_region], which is
    [region_width * region_height], makes [get_tile_coordinates] raise the
    ValueError of its range check, whatever the tiling module. *)
Theorem get_tile_coordinates_out_of_range
    (tiling : tiling_module) (c : conf) (w h tile_index : Z) :
  region_width c = Ok (PInt w) →
  region_height c = Ok (PInt h) →
  w * h ≤ tile_index →
  n_tiles_per_region c = Ok (PInt (w * h))
  ∧ get_tile_coordinates tiling c tile_index
    = Raise (ValueError TileIndexOutOfRange).
Proof.
  intros Hw Hh Hle.
  assert (Hn : n_tiles_per_region c = Ok (PInt (w * h))).
  { unfold n_tiles_per_region. by rewrite Hw, Hh. }
  split; [done|].
  unfold get_tile_coordinates. rewrite Hn. simpl.
  by assert ((w * h <=? tile_index) = true) as -> by by apply Z.leb_le.
Qed.

Lemma get_tile_coordinates_out_of_range_witness :
  get_tile_coordinates snake_tiling example_experiment 4
  = Raise (ValueError TileIndexOutOfRange).
Proof.
  apply (get_tile_coordinates_out_of_range snake_tiling example_experiment
           2 2 4); [reflexivity|reflexivity|lia].
Defined.
End TilingMode.

(** ** One-based indexes *)

Section OneBased.
Import Config.

Lemma for_each_Forall2 {A B} (f : A → res B) (l : list A) (r : list B) :
  for_each f l = Ok r → Forall2 (λ x y, f x = Ok y) l r.
Proof.
  revert r. induction l as [|x l IH]; intros r; simpl.
  - intros [= <-]. constructor.
  - destruct (f x) as [y|] eqn:Hx; [|discriminate].
    destruct (for_each f l) as [ys|]; [|discriminate].
    intros [= <-]. constructor; [done|]. by apply IH.
Qed.

Lemma for_each_returns {A B} (f : A → res B) (l : list A) :
  (∀ x, x ∈ l → returns (f x) = true) → ∃ r, for_each f l = Ok r.
Proof.
  induction l as [|x l IH]; intros H; simpl; [eauto|].
  pose proof (H x (list_elem_of_here _ _)) as Hx.
  destruct (f x) as [y|]; [|discriminate].
  destruct IH as [ys ->]; [|eauto].
  intros z Hz. apply H. by apply list_elem_of_further.
Qed.

(** A validated configuration has positive [int] region entries, and its
    0-based region indexes are those entries less one. *)
Lemma validated_region_indexes (c c' : conf) :
  _validate c = Ok c' →
  ∃ (regv : pyval) (regs : list pyval),
    getitem c "regIdx" = Ok regv ∧ py_iter regv = Ok regs
    ∧ (∀ r, r ∈ regs → ∃ x, as_int r = Some x ∧ 0 < x)
    ∧ region_indexes c = Ok ((λ r, default 0 (as_int r) - 1) <$> regs).
Proof.
  intros Hv. apply _validate_inv in Hv as [_ (regv & regs & Hget & Hit & Hpos)].
  exists regv, regs. repeat split; try done.
  unfold region_indexes. rewrite Hget; simpl. rewrite Hit; simpl.
  apply for_each_total. intros r Hr.
  destruct (Hpos r Hr) as (x & Hx & _). unfold py_sub1. by rewrite Hx.
Qed.

(** An [int] at or below zero is rejected by the index check with its
    ValueError. *)
Lemma validate_one_based_index_nonpositive (c : conf) (k : string) (x : Z) :
  x ≤ 0 →
  validate_one_based_index c k (PInt x) = Raise (ValueError (NotOneBasedIndex k)).
Proof.
  intros H. unfold validate_one_based_index. simpl.
  by assert ((x <=? 0) = true) as -> by by apply Z.leb_le.
Qed.

(** The region entries 0 and -1 are rejected, the entry 1 is accepted and
    becomes the 0-based region index 0. *)
Example region_index_examples :
  load (dir_of (<["regIdx" := PList [PInt 0]]> example_experiment)
          example_channel_lines) None
  = Raise (ValueError (NotOneBasedIndex "regIdx"))
  ∧ load (dir_of (<["regIdx" := PList [PInt (-1)]]> example_experiment)
            example_channel_lines) None
    = Raise (ValueError (NotOneBasedIndex "regIdx"))
  ∧ (load (dir_of (<["regIdx" := PList [PInt 1]]> example_experiment)
             example_channel_lines) None ≫= region_indexes)
    = Ok [0].
Proof. repeat split; by vm_compute. Qed.

(** C5: a region entry, or a reference field, that holds text is not a
    positive integer, and loading fails on it with the TypeError of the
    comparison [v <= 0], which is evaluated before [isinstance(v, int)];
    so does a [null] region entry, for which the check reads the whole
    [regIdx] list instead. *)
Theorem load_text_index_raises_TypeError :
  load (dir_of (<["regIdx" := PList [PStr "1"]]> example_experiment)
          example_channel_lines) None
  = Raise TypeError
  ∧ load (dir_of (<["driftCompReferenceCycle" := PStr "one"]> example_experiment)
            example_channel_lines) None
    = Raise TypeError
  ∧ load (dir_of (<["regIdx" := PList [PInt 1; PNone]]> example_experiment)
            example_channel_lines) None
    = Raise TypeError.
Proof. repeat split; by vm_compute. Qed.



End OneBased.

(** ** Work units *)

Section WorkUnits.
Import Config.

Lemma region_major_cons (r : Z) (regs tiles : list Z) :
  region_major (r :: regs) tiles
  = (((λ i, (r, i)) <$> tiles) ++ region_major regs tiles)%list.
Proof. reflexivity. Qed.

Lemma region_major_length (regs tiles : list Z) :
  length (region_major regs tiles) = (length regs * length tiles)%nat.
Proof.
  induction regs as [|r regs IH]; [done|].
  rewrite region_major_cons, length_app, length_fmap, IH. simpl. lia.
Qed.

Lemma elem_of_region_major (regs tiles : list Z) (r i : Z) :
  (r, i) ∈ region_major regs tiles ↔ r ∈ regs ∧ i ∈ tiles.
Proof.
  induction regs as [|r0 regs IH].
  - split; [by intros ?%elem_of_nil|by intros [?%elem_of_nil _]].
  - rewrite region_major_cons, elem_of_app, IH, list_elem_of_fmap, elem_of_cons.
    split.
    + intros [(j & [= -> ->] & Hj)|[Hr Hi]]; auto.
    + intros [[->|Hr] Hi]; [left; eauto|right; auto].
Qed.

Lemma NoDup_region_major (regs tiles : list Z) :
  NoDup regs → NoDup tiles → NoDup (region_major regs tiles).
Proof.
  intros Hregs Htiles. induction Hregs as [|r regs Hr Hregs IH].
  - constructor.
  - rewrite region_major_cons. apply NoDup_app. split; [|split; [|done]].
    + apply NoDup_fmap_2; [|done]. by intros x y [= ->].
    + intros [r' i] (j & [= -> ->] & Hj)%list_elem_of_fmap
        [Hin _]%elem_of_region_major. done.
Qed.

Section WithTiling.
Variable tiling : tiling_module.

(** Below [n_tiles_per_region], a coordinate query is answered by the
    tiling module. *)
Lemma get_tile_coordinates_in_range (c : conf) (w h i : Z) (mode : pyval)
    (t : tiler tiling) :
  region_width c = Ok (PInt w) →
  region_height c = Ok (PInt h) →
  tiling_mode c = Ok mode →
  get_tiling_by_name tiling mode = Ok t →
  i < w * h →
  get_tile_coordinates tiling c i
  = coordinates_from_index tiling t i (PInt w) (PInt h).
Proof.
  intros Hw Hh Hmode Ht Hi. unfold get_tile_coordinates, n_tiles_per_region.
  rewrite Hw, Hh; simpl.
  assert ((w * h <=? i) = false) as -> by by apply Z.leb_gt.
  rewrite Hmode; simpl. by rewrite Ht.
Qed.

(** The inner loop: the work units of one region, in tile order. *)
Lemma region_tile_indices_spec (c : conf) (ireg n : Z) :
  n_tiles_per_region c = Ok (PInt n) →
  (∀ i, 0 ≤ i < n → returns (get_tile_coordinates tiling c i) = true) →
  ∃ us, region_tile_indices tiling c ireg = Ok us
        ∧ unit_key <$> us = (λ i, (ireg, i)) <$> range 0 n
        ∧ ∀ u, u ∈ us →
            get_tile_coordinates tiling c (tile_index u)
            = Ok (tile_x u, tile_y u).
Proof.
  intros Hn Hret. unfold region_tile_indices. rewrite Hn. simpl.
  assert (Hall : ∀ i, i ∈ range 0 n →
            returns (get_tile_coordinates tiling c i) = true).
  { intros i Hi%elem_of_range. by apply Hret. }
  clear Hret. induction (range 0 n) as [|i l IH]; simpl.
  - exists []. repeat split. by intros u ?%elem_of_nil.
  - pose proof (Hall i (list_elem_of_here _ _)) as Hi.
    destruct (get_tile_coordinates tiling c i) as [[x y]|] eqn:Hxy;
      [|discriminate].
    destruct IH as (us & -> & Hkeys & Hcoord).
    { intros j Hj. apply Hall. by apply list_elem_of_further. }
    simpl. eexists. split; [reflexivity|]. split.
    + by rewrite !fmap_cons, Hkeys.
    + intros u [->|Hu]%elem_of_cons; [done|by apply Hcoord].
Qed.

(** The outer loop. *)
Lemma get_tile_indices_spec (c : conf) (regs : list Z) (n : Z) :
  region_indexes c = Ok regs →
  n_tiles_per_region c = Ok (PInt n) →
  (∀ i, 0 ≤ i < n → returns (get_tile_coordinates tiling c i) = true) →
  ∃ units, get_tile_indices tiling c = Ok units
           ∧ unit_key <$> units = region_major regs (range 0 n)
           ∧ ∀ u, u ∈ units →
               get_tile_coordinates tiling c (tile_index u)
               = Ok (tile_x u, tile_y u).
Proof.
  intros Hregs Hn Hret. unfold get_tile_indices. rewrite Hregs. simpl.
  clear Hregs. induction regs as [|r regs IH]; simpl.
  - exists []. repeat split. by intros u ?%elem_of_nil.
  - destruct (region_tile_indices_spec c r n Hn Hret)
      as (us & -> & Hkeys & Hcoord).
    destruct IH as (units & Hunits & Hkeys' & Hcoord').
    destruct (for_each (region_tile_indices tiling c) regs) as [rest|];
      [|discriminate].
    simpl in *. injection Hunits as <-.
    eexists. split; [reflexivity|]. split.
    + by rewrite fmap_app, Hkeys, Hkeys', region_major_cons.
    + intros u [Hu|Hu]%elem_of_app; auto.
Qed.
End WithTiling.
End WorkUnits.

(** ** The enumeration of work units *)

Section Enumeration.
Import Config.

(** C7, counterexample: three validated configurations.  With region
    entries [1, 1] every (region, tile) pair is listed twice; with a
    region width of -2 and a height of 2 no work unit is listed, where
    the product is -12; with a tiling mode the tiling module does not
    know the enumeration raises. *)
Lemma get_tile_indices_not_for_every_validated :
  (_validate (<["regIdx" := PList [PInt 1; PInt 1]]> example_loaded)
   = Ok (<["regIdx" := PList [PInt 1; PInt 1]]> example_loaded)
   ∧ ((λ units : list TileIndices, unit_key <$> units) <$>
        get_tile_indices snake_tiling
          (<["regIdx" := PList [PInt 1; PInt 1]]> example_loaded))
     = Ok [(0, 0); (0, 1); (0, 2); (0, 3); (0, 0); (0, 1); (0, 2); (0, 3)])
  ∧ (_validate (<["region_width" := PInt (-2)]> example_loaded)
     = Ok (<["region_width" := PInt (-2)]> example_loaded)
     ∧ region_indexes (<["region_width" := PInt (-2)]> example_loaded)
       = Ok [0; 1; 2]
     ∧ n_tiles_per_region (<["region_width" := PInt (-2)]> example_loaded)
       = Ok (PInt (-4))
     ∧ get_tile_indices snake_tiling
         (<["region_width" := PInt (-2)]> example_loaded)
       = Ok [])
  ∧ (_validate (<["tiling_mode" := PStr "spiral"]> example_loaded)
     = Ok (<["tiling_mode" := PStr "spiral"]> example_loaded)
     ∧ get_tile_indices snake_tiling
         (<["tiling_mode" := PStr "spiral"]> example_loaded)
       = Raise UnsupportedModeError).
Proof.
  repeat split; try (apply _validate_returns); by vm_compute.
Qed.

(** C7, amended: for a validated configuration whose region width and
    height are integers with a product that is not negative, whose tiling
    mode the tiling module resolves and whose strategy answers for every
    tile index below that product, [get_tile_indices] returns
    [len(region_indexes) * region_width * region_height] work units,
    region by region in the order of the region indexes and, within a
    region, by tile index from 0 upwards, each with the coordinates
    [get_tile_coordinates] gives; the (region, tile) pairs are pairwise
    distinct when the region indexes are. *)
Theorem get_tile_indices_enumeration
    (tiling : tiling_module) (c : conf) (w h : Z) (mode : pyval)
    (t : tiler tiling) :
  _validate c = Ok c →
  region_width c = Ok (PInt w) →
  region_height c = Ok (PInt h) →
  0 ≤ w * h →
  tiling_mode c = Ok mode →
  get_tiling_by_name tiling mode = Ok t →
  (∀ i, 0 ≤ i < w * h →
        returns (coordinates_from_index tiling t i (PInt w) (PInt h)) = true) →
  ∃ (regs : list Z) (units : list TileIndices),
    region_indexes c = Ok regs
    ∧ get_tile_indices tiling c = Ok units
    ∧ Z.of_nat (length units) = Z.of_nat (length regs) * w * h
    ∧ unit_key <$> units = region_major regs (range 0 (w * h))
    ∧ (NoDup regs → NoDup (unit_key <$> units))
    ∧ (∀ u, u ∈ units →
            get_tile_coordinates tiling c (tile_index u)
            = Ok (tile_x u, tile_y u)).
Proof.
  intros Hv Hw Hh Hpos Hmode Ht Hcoord.
  destruct (validated_region_indexes c c Hv) as (regv & vs & _ & _ & _ & Hregs).
  assert (Hn : n_tiles_per_region c = Ok (PInt (w * h))).
  { unfold n_tiles_per_region. by rewrite Hw, Hh. }
  destruct (get_tile_indices_spec tiling c _ (w * h) Hregs Hn)
    as (units & Hunits & Hkeys & Hxy).
  { intros i Hi.
    rewrite (get_tile_coordinates_in_range tiling c w h i mode t) by (done || lia).
    by apply Hcoord. }
  eexists _, units. split; [exact Hregs|]. split; [exact Hunits|].
  split; [|split; [exact Hkeys|split; [|exact Hxy]]].
  - rewrite <-(length_fmap unit_key), Hkeys, region_major_length, range_length.
    rewrite Nat2Z.inj_mul, Z2Nat.id by lia. lia.
  - intros Hnd. rewrite Hkeys. apply NoDup_region_major; [done|].
    apply NoDup_range.
Qed.

Lemma get_tile_indices_enumeration_witness :
  ∃ units, get_tile_indices snake_tiling example_loaded = Ok units
           ∧ Z.of_nat (length units) = 12
           ∧ NoDup (unit_key <$> units).
Proof.
  destruct (get_tile_indices_enumeration snake_tiling example_loaded 2 2
              (PStr "snake") ())
    as (regs & units & Hregs & Hunits & Hlen & _ & Hnd & _).
  - apply _validate_returns. by vm_compute.
  - by vm_compute.
  - by vm_compute.
  - lia.
  - by vm_compute.
  - reflexivity.
  - intros i _. reflexivity.
  - vm_compute in Hregs. injection Hregs as <-.
    exists units. split; [done|]. split; [exact Hlen|].
    apply Hnd. apply NoDup_ListNoDup. repeat constructor; simpl; lia.
Defined.
End Enumeration.

(** ** Channel coordinates *)

Section Channels.
Import Config.
Local Open Scope list_scope.

Lemma list_index_Some (name : string) (l : list pyval) (i : nat) :
  list_index name l = Some i
  ↔ l !! i = Some (PStr name) ∧ ∀ j, (j < i)%nat → l !! j ≠ Some (PStr name).
Proof.
  revert i. induction l as [|v l IH]; intros i; simpl.
  - split; [discriminate|]. by intros [? _].
  - destruct (py_str_eq name v) eqn:E.
    + apply py_str_eq_true in E as ->. split.
      * intros [= <-]. split; [done|]. lia.
      * intros [Hi Hfirst]. destruct i as [|i]; [done|].
        by destruct (Hfirst O ltac:(lia)).
    + assert (v ≠ PStr name) as Hne.
      { intros Hv%py_str_eq_true. congruence. }
      destruct i as [|i].
      * split.
        -- destruct (list_index name l); discriminate.
        -- intros [[= Hv] _]. done.
      * specialize (IH i). simpl. split.
        -- destruct (list_index name l) as [k|]; [|discriminate].
           intros [= ->]. destruct IH as [[Hi Hfirst] _]; [done|].
           split; [done|]. intros [|j] Hj; simpl; [congruence|].
           apply Hfirst. lia.
        -- intros [Hi Hfirst]. rewrite (proj2 IH); [done|].
           split; [done|]. intros j Hj. apply (Hfirst (S j)). lia.
Qed.

Lemma list_index_existsb (name : string) (l : list pyval) :
  existsb (py_str_eq name) l = true ↔ is_Some (list_index name l).
Proof.
  induction l as [|v l IH]; simpl.
  - split; [discriminate|by intros [? ?]].
  - destruct (py_str_eq name v); simpl; [by split; eauto|].
    rewrite IH. destruct (list_index name l); simpl.
    + by split; eauto.
    + split; by intros [? ?].
Qed.

Lemma list_index_app (name : string) (l1 l2 : list pyval) :
  PStr name ∉ l1 →
  list_index name (l1 ++ PStr name :: l2) = Some (length l1).
Proof.
  intros Hnot. apply list_index_Some. split.
  - by rewrite lookup_app_r, Nat.sub_diag.
  - intros j Hj Hlook. apply Hnot.
    rewrite lookup_app_l in Hlook by done.
    by eapply list_elem_of_lookup_2.
Qed.

Lemma divide_position_int (i n : Z) (nv : pyval) :
  as_int nv = Some n → n ≠ 0 → divide_position i nv = Ok (i / n, i mod n).
Proof.
  intros Hn Hn0. unfold divide_position, py_int_floordiv, py_int_mod.
  rewrite Hn. by apply Z.eqb_neq in Hn0 as ->.
Qed.

(** The lookup on a list of names. *)
Lemma get_channel_coordinates_list
    (c : conf) (names : list pyval) (nv : pyval) (name : string) :
  channel_names c = Ok (PList names) →
  n_cycles c = Ok nv →
  get_channel_coordinates c name
  = match list_index name names with
    | None => Raise (ValueError ChannelNotConfigured)
    | Some i => divide_position (Z.of_nat i) nv
    end.
Proof.
  intros Hnames Hn. unfold get_channel_coordinates.
  rewrite Hnames, Hn.
  cbn [mbind res_mbind res_bind py_str_in py_index].
  pose proof (list_index_existsb name names) as Hex.
  destruct (list_index name names) as [i|].
  - assert (existsb (py_str_eq name) names = true) as ->.
    { apply Hex. eauto. }
    reflexivity.
  - assert (existsb (py_str_eq name) names = false) as ->; [|done].
    apply not_true_is_false. intros [? ?]%Hex. done.
Qed.

(** A validated configuration with a channel name has a cycle count
    that is an integer other than zero. *)
Lemma validated_n_cycles_nonzero (c : conf) (names : list pyval) :
  _validate c = Ok c →
  channel_names c = Ok (PList names) →
  names ≠ [] →
  ∃ (nv : pyval) (n : Z), n_cycles c = Ok nv ∧ as_int nv = Some n ∧ n ≠ 0.
Proof.
  intros Hv Hnames Hne.
  apply _validate_inv in Hv as [(L & e & HL & He & Hint) _].
  unfold _n_actual_channels in HL. rewrite Hnames in HL. injection HL as <-.
  unfold _n_expected_channels in He. peel He.
  exists a. unfold py_mul in He. simpl in He.
  destruct (as_int a) as [n|] eqn:Hn.
  - exists n. repeat split; try done.
    injection He as <-. simpl in Hint. injection Hint as Hint.
    destruct names; [done|]. simpl in Hint. lia.
  - unfold py_repeat in He.
    destruct a; simpl in *; try discriminate; injection He as <-; discriminate.
Qed.

(** C1, counterexample: with the channel names DAPI, CD4, DAPI, Ki67 and
    two cycles the configuration loads; the name at position 2 is DAPI,
    and its coordinates are (0, 0), not (2 // 2, 2 % 2) = (1, 0). *)
Lemma get_channel_coordinates_repeated_name :
  (load (dir_of example_experiment ["DAPI"; "CD4"; "DAPI"; "Ki67"]) None
     ≫= channel_names)
  = Ok (PList [PStr "DAPI"; PStr "CD4"; PStr "DAPI"; PStr "Ki67"])
  ∧ (load (dir_of example_experiment ["DAPI"; "CD4"; "DAPI"; "Ki67"]) None
       ≫= n_cycles)
    = Ok (PInt 2)
  ∧ (load (dir_of example_experiment ["DAPI"; "CD4"; "DAPI"; "Ki67"]) None
       ≫= λ c, get_channel_coordinates c "DAPI")
    = Ok (0, 0)
  ∧ divide_position 2 (PInt 2) = Ok (1, 0).
Proof. repeat split; by vm_compute. Qed.

(** C1, amended: for a channel name whose first occurrence in the flat
    channel-name list is at 0-based position [i], [get_channel_coordinates]
    returns exactly [(i // n_cycles, i % n_cycles)], raising what the two
    divisions raise; for a cycle count that is an integer [n] other than
    zero this is the pair [(i / n, i mod n)].  Divisor and modulus are
    [n_cycles], not [n_channels_per_cycle]. *)
Theorem get_channel_coordinates_first_position
    (c : conf) (names : list pyval) (nv : pyval) (name : string) (i : nat) :
  channel_names c = Ok (PList names) →
  n_cycles c = Ok nv →
  names !! i = Some (PStr name) →
  (∀ j, (j < i)%nat → names !! j ≠ Some (PStr name)) →
  get_channel_coordinates c name = divide_position (Z.of_nat i) nv
  ∧ ∀ n : Z, as_int nv = Some n → n ≠ 0 →
      get_channel_coordinates c name = Ok (Z.of_nat i / n, Z.of_nat i mod n).
Proof.
  intros Hnames Hn Hi Hfirst.
  rewrite (get_channel_coordinates_list c names nv name Hnames Hn).
  assert (list_index name names = Some i) as -> by by apply list_index_Some.
  split; [done|]. intros n Hint Hn0. by apply divide_position_int.
Qed.

Lemma get_channel_coordinates_first_position_witness :
  get_channel_coordinates example_loaded "CD8" = Ok (1, 0).
Proof.
  refine (proj2 (get_channel_coordinates_first_position example_loaded
                   [PStr "DAPI"; PStr "CD4"; PStr "CD8"; PStr "Ki67"] (PInt 2)
                   "CD8" 2 _ _ _ _) 2 eq_refl _).
  - by vm_compute.
  - by vm_compute.
  - reflexivity.
  - intros [|[|j]] Hj; [discriminate|discriminate|lia].
  - lia.
Defined.

(** When the names are pairwise distinct, every position is a first
    occurrence. *)
Lemma get_channel_coordinates_distinct_names
    (c : conf) (names : list pyval) (nv : pyval) (name : string) (i : nat) :
  channel_names c = Ok (PList names) →
  n_cycles c = Ok nv →
  NoDup names →
  names !! i = Some (PStr name) →
  get_channel_coordinates c name = divide_position (Z.of_nat i) nv.
Proof.
  intros Hnames Hn Hnd Hi.
  rewrite (get_channel_coordinates_list c names nv name Hnames Hn).
  assert (list_index name names = Some i) as ->; [|done].
  apply list_index_Some. split; [done|]. intros j Hj Hlook.
  pose proof (NoDup_lookup _ _ _ _ Hnd Hi Hlook). lia.
Qed.

(** C10: when a name occurs in the channel-name list after a prefix
    [before] that does not hold it, its coordinates are those of position
    [len(before)], whatever follows, further occurrences included; and
    whichever name is looked up, the position a returned pair is derived
    from is the first one that holds the name, so that no lookup reaches
    a later occurrence. *)
Theorem get_channel_coordinates_first_occurrence
    (c : conf) (nv : pyval) (name : string) (before after : list pyval) :
  channel_names c = Ok (PList (before ++ PStr name :: after)) →
  n_cycles c = Ok nv →
  PStr name ∉ before →
  get_channel_coordinates c name
  = divide_position (Z.of_nat (length before)) nv
  ∧ ∀ (q : string) (r : Z * Z),
      get_channel_coordinates c q = Ok r →
      ∃ i : nat,
        (before ++ PStr name :: after) !! i = Some (PStr q)
        ∧ (∀ j, (j < i)%nat → (before ++ PStr name :: after) !! j ≠ Some (PStr q))
        ∧ divide_position (Z.of_nat i) nv = Ok r.
Proof.
  intros Hnames Hn Hnot. split.
  - rewrite (get_channel_coordinates_list c _ nv name Hnames Hn).
    by rewrite list_index_app.
  - intros q r. rewrite (get_channel_coordinates_list c _ nv q Hnames Hn).
    destruct (list_index q _) as [i|] eqn:Hi; [|discriminate].
    intros Hr. apply list_index_Some in Hi as [Hi Hfirst]. by exists i.
Qed.

Lemma get_channel_coordinates_first_occurrence_witness :
  get_channel_coordinates
    (<["all_channel_names" :=
         PList [PStr "DAPI"; PStr "CD4"; PStr "CD4"; PStr "Ki67"]]>
       example_experiment) "CD4"
  = Ok (0, 1).
Proof.
  refine (proj1 (get_channel_coordinates_first_occurrence
                   (<["all_channel_names" :=
                        PList [PStr "DAPI"; PStr "CD4"; PStr "CD4"; PStr "Ki67"]]>
                      example_experiment)
                   (PInt 2) "CD4" [PStr "DAPI"] [PStr "CD4"; PStr "Ki67"] _ _ _)).
  - by vm_compute.
  - by vm_compute.
  - intros [[=]|[]%elem_of_nil]%elem_of_cons.
Defined.
End Channels.

(** * Further properties of the two modules *)

(** ** Argument handling of the command line *)

Section Arguments.
Import Processor.

(** What the resolver returns is [None], a list or a mapping. *)
Lemma resolve_result_shape (v r : pyval) :
  resolve_int_list_arg v = Ok r →
  r = PNone ∨ (∃ l, r = PList l) ∨ (∃ d, r = PDict d).
Proof.
  destruct v as [|b|n|s|l|t|d]; simpl.
  - intros [= <-]. by left.
  - intros [= <-]. right; left; eauto.
  - intros [= <-]. right; left; eauto.
  - destruct (py_int s); simpl; [|discriminate].
    intros [= <-]. right; left; eauto.
  - intros [= <-]. right; left; eauto.
  - intros H. peel H. injection H as <-. right; left; eauto.
  - intros [= <-]. right; right; eauto.
Qed.


(** X2: resolving is idempotent: a resolved argument resolves to itself, so
    an argument that went through the resolver can go through it again. *)
Theorem resolve_int_list_arg_idempotent (v r : pyval) :
  resolve_int_list_arg v = Ok r → resolve_int_list_arg r = Ok r.
Proof.
  intros H.
  destruct (resolve_result_shape v r H) as [->|[[l ->]|[d ->]]]; reflexivity.
Qed.

Lemma resolve_int_list_arg_idempotent_witness :
  resolve_int_list_arg (PList [PInt 1; PInt 2; PInt 3])
  = Ok (PList [PInt 1; PInt 2; PInt 3]).
Proof.
  apply (resolve_int_list_arg_idempotent (PTuple [PInt 1; PInt 4])).
  reflexivity.
Defined.

Lemma forallb_PInt (l : list pyval) :
  forallb (λ x, match x with PInt _ => true | _ => false end) l = true →
  ∃ zs : list Z, l = PInt <$> zs.
Proof.
  induction l as [|x l IH]; simpl.
  - intros _. by exists [].
  - destruct x; try discriminate. intros H. destruct (IH H) as [zs ->].
    by exists (n :: zs).
Qed.

(** X3: on the documented shapes the resolver returns [None] for [None] only
    and a list of integers for everything else; it fails on text alone,
    with the ValueError of [int]. *)
Theorem resolve_documented_shape (v : pyval) :
  documented_shape v = true →
  match resolve_int_list_arg v with
  | Ok r =>
      (v = PNone ∧ r = PNone)
      ∨ (v ≠ PNone ∧ ∃ zs : list Z, r = PList (PInt <$> zs))
  | Raise e => (∃ s, v = PStr s) ∧ e = ValueError InvalidIntLiteral
  end.
Proof.
  destruct v as [|b|n|s|l|t|d]; simpl; try discriminate.
  - intros _. by left.
  - intros _. right. split; [done|]. by exists [n].
  - intros _. unfold py_int.
    destruct (match drop_while _ _ with [] => _ | _ => _ end); simpl.
    + right. split; [done|]. by exists [z].
    + split; [eauto|done].
  - intros [zs ->]%forallb_PInt. right. split; [done|]. by exists zs.
  - destruct t as [|[] [|[] rest]]; try discriminate.
    intros _. simpl. right. split; [done|]. by eexists.
Qed.

Lemma resolve_documented_shape_witness :
  (PTuple [PInt 2; PInt 5] ≠ PNone
   ∧ ∃ zs : list Z,
       PList [PInt 2; PInt 3; PInt 4] = PList (PInt <$> zs))
  ∧ (∃ s, PStr "1,2" = PStr s).
Proof.
  split.
  - pose proof (resolve_documented_shape (PTuple [PInt 2; PInt 5]) eq_refl) as H.
    destruct H as [[[=] _]|H]; exact H.
  - exact (proj1 (resolve_documented_shape (PStr "1,2") eq_refl)).
Defined.


Lemma range_length_Z (a b : Z) :
  Z.of_nat (length (range a b)) = Z.max 0 (b - a).
Proof. rewrite range_length. lia. Qed.

(** X5: with no explicit worker count the number of workers is the number of
    resolved GPU indexes: one for a single index, given as an integer or as
    text, whatever the index; [b - a] for a pair [(a, b)], and none at all
    when [b <= a]. *)
Theorem localhost_n_workers_by_gpus_shape
    (data_dir region_indexes tile_indexes config_dir : pyval) (r t : pyval) :
  resolve_int_list_arg region_indexes = Ok r →
  resolve_int_list_arg tile_indexes = Ok t →
  (∀ k : Z,
      ra_n_workers <$>
        localhost data_dir region_indexes tile_indexes config_dir PNone (PInt k)
      = Ok (PInt 1))
  ∧ (∀ k : Z,
      ra_n_workers <$>
        localhost data_dir region_indexes tile_indexes config_dir PNone
          (PStr (pretty k))
      = Ok (PInt 1))
  ∧ (∀ (a b : Z) (rest : list pyval),
      ra_n_workers <$>
        localhost data_dir region_indexes tile_indexes config_dir PNone
          (PTuple (PInt a :: PInt b :: rest))
      = Ok (PInt (Z.max 0 (b - a)))).
Proof.
  intros Hr Ht. unfold localhost. rewrite Hr, Ht.
  cbn [mbind res_mbind res_bind]. repeat split.
  - intros k. by rewrite resolve_text, py_int_pretty.
  - intros a b rest. rewrite resolve_tuple_ints. simpl.
    by rewrite length_fmap, range_length_Z.
Qed.

Lemma localhost_n_workers_by_gpus_shape_witness :
  ra_n_workers <$>
    localhost (PStr "/data") PNone PNone PNone PNone (PInt 3)
  = Ok (PInt 1)
  ∧ ra_n_workers <$>
      localhost (PStr "/data") PNone PNone PNone PNone (PTuple [PInt 3; PInt 3])
    = Ok (PInt 0).
Proof.
  split.
  - exact (proj1 (localhost_n_workers_by_gpus_shape (PStr "/data") PNone PNone
                    PNone PNone PNone eq_refl eq_refl) 3).
  - exact (proj2 (proj2 (localhost_n_workers_by_gpus_shape (PStr "/data") PNone
                           PNone PNone PNone PNone eq_refl eq_refl)) 3 3 []).
Defined.
End Arguments.

(** ** The layers of a loaded configuration *)

Section Layers.
Import Config.
Local Open Scope list_scope.

Lemma drop_while_split {A} (p : A → bool) (l : list A) :
  ∃ pre, l = pre ++ drop_while p l.
Proof.
  induction l as [|x l [pre IH]]; simpl.
  - by exists [].
  - destruct (p x).
    + exists (x :: pre). simpl. by f_equal.
    + by exists [].
Qed.

Lemma drop_while_head {A} (p : A → bool) (l l' : list A) (x : A) :
  drop_while p l = x :: l' → p x = false.
Proof.
  induction l as [|y l IH]; simpl; [discriminate|].
  destruct (p y) eqn:Hy; [done|]. by intros [= -> _].
Qed.

Lemma drop_while_fixed {A} (p : A → bool) (l : list A) :
  (∀ x l', l = x :: l' → p x = false) → drop_while p l = l.
Proof.
  destruct l as [|x l]; [done|]. intros H. simpl.
  by rewrite (H x l eq_refl).
Qed.

(** The characters [strip] keeps: what is left after dropping the
    whitespace at both ends. *)
Lemma strip_chars_fixed (cs : list ascii) :
  let t := rev (drop_while is_space (rev (drop_while is_space cs))) in
  rev (drop_while is_space (rev (drop_while is_space t))) = t.
Proof.
  intros t. set (u := drop_while is_space cs) in *.
  set (w := drop_while is_space (rev u)) in *.
  assert (Ht : drop_while is_space t = t).
  { apply drop_while_fixed. intros x t' Hxt.
    destruct (drop_while_split is_space (rev u)) as [pre Hpre]. fold w in Hpre.
    assert (Hu : u = t ++ rev pre).
    { rewrite <-(rev_involutive u), Hpre, rev_app_distr. done. }
    rewrite Hxt in Hu. simpl in Hu.
    by apply (drop_while_head is_space cs (t' ++ rev pre)). }
  rewrite Ht. unfold t. rewrite rev_involutive.
  f_equal. apply drop_while_fixed. intros x l' Hw.
  by apply (drop_while_head is_space (rev u) l').
Qed.

Lemma strip_idempotent (s : string) : strip (strip s) = strip s.
Proof.
  unfold strip. rewrite list_ascii_of_string_of_list_ascii.
  f_equal. apply strip_chars_fixed.
Qed.

(** X6: the channel names read from the file are the stripped non-blank
    lines, in file order: none is empty, none has whitespace at either end,
    and there are no more names than lines. *)
Theorem channel_names_are_stripped (lines : list string) :
  ∃ names : list string,
    stripped_lines lines = PList (PStr <$> names)
    ∧ names = strip <$> filter (λ l, strip l ≠ "") lines
    ∧ (∀ n, n ∈ names → n ≠ "" ∧ strip n = n)
    ∧ (∀ n, n ∈ names ↔ n ≠ "" ∧ ∃ l, l ∈ lines ∧ strip l = n)
    ∧ (length names ≤ length lines)%nat.
Proof.
  eexists. split; [reflexivity|]. split; [reflexivity|].
  assert (Hin : ∀ n, n ∈ strip <$> filter (λ l, strip l ≠ "") lines
                     ↔ n ≠ "" ∧ ∃ l, l ∈ lines ∧ strip l = n).
  { intros n. rewrite list_elem_of_fmap. split.
    - intros (l & -> & [Hne Hl]%list_elem_of_filter). split; [done|eauto].
    - intros (Hne & l & Hl & <-). exists l. split; [done|].
      by apply list_elem_of_filter. }
  split; [|split; [exact Hin|]].
  - intros n (Hne & l & _ & <-)%Hin. split; [done|apply strip_idempotent].
  - rewrite length_fmap. apply length_filter.
Qed.

Lemma load_conf_Some (d : data_dir) (overrides : option conf)
    (e : conf) (lines : list string) :
  Experiment_json d = Some e →
  channelNames_txt d = Some lines →
  load_conf d overrides
  = Ok (default ∅ overrides
        ∪ ({[ "all_channel_names" := stripped_lines lines ]}
           ∪ (default ∅ (processingOptions_json d) ∪ e))).
Proof.
  intros He Hl. unfold load_conf, _load_experiment_config,
    _load_processing_options, _load_channel_names, _load_json_config, update.
  rewrite He, Hl.
  destruct (processingOptions_json d) as [o|];
    cbn [mbind res_mbind res_bind default]; f_equal.
  all: destruct overrides as [ov|]; cbn [default]; unfold id.
  all: try case_decide.
  all: try match goal with
         | H : size _ = 0%nat |- _ => apply map_size_empty_inv in H as ->
         end.
  all: by rewrite ?(left_id_L ∅ (∪)).
Qed.

Lemma option_union_first {A} (x y : option A) :
  x ∪ y = match x with Some a => Some a | None => y end.
Proof. by destruct x, y. Qed.

(** X7: last writer wins.  In a configuration that [load] returns, the value
    under a key is the override's when the overrides hold the key; else,
    under [all_channel_names], the names read from the channel-names file
    (an entry of that name in the two JSON files is always replaced); else
    the processing option's when the options hold the key; else the
    experiment's.  [load] returns the merged mapping itself. *)
Theorem load_last_writer_wins
    (d : data_dir) (overrides : option conf) (c e : conf)
    (lines : list string) (k : string) :
  Experiment_json d = Some e →
  channelNames_txt d = Some lines →
  load d overrides = Ok c →
  c !! k
  = match overrides ≫= (λ o, o !! k) with
    | Some v => Some v
    | None =>
        if decide (k = "all_channel_names") then Some (stripped_lines lines)
        else
          match processingOptions_json d ≫= (λ o, o !! k) with
          | Some v => Some v
          | None => e !! k
          end
    end.
Proof.
  intros He Hl [Hc _]%load_Ok_validated.
  rewrite (load_conf_Some d overrides e lines He Hl) in Hc.
  injection Hc as <-. rewrite !lookup_union, !option_union_first.
  assert (default ∅ overrides !! k = overrides ≫= (λ o, o !! k)) as ->.
  { destruct overrides; [done|apply lookup_empty]. }
  assert (default ∅ (processingOptions_json d) !! k
          = processingOptions_json d ≫= (λ o, o !! k)) as ->.
  { destruct (processingOptions_json d); [done|apply lookup_empty]. }
  destruct (overrides ≫= _) as [v|]; [done|].
  case_decide as Hk.
  - subst k. by rewrite lookup_singleton_eq.
  - by rewrite lookup_singleton_ne.
Qed.

Lemma load_last_writer_wins_witness :
  ∃ c, load (dir_of (<["all_channel_names" := PNone]> example_experiment)
               example_channel_lines)
         (Some {[ "num_cycles" := PInt 2 ]}) = Ok c
       ∧ c !! "num_cycles" = Some (PInt 2)
       ∧ c !! "all_channel_names" = Some (stripped_lines example_channel_lines).
Proof.
  pose (e := <["all_channel_names" := PNone]> example_experiment).
  pose (d := dir_of e example_channel_lines).
  pose (ov := Some ({[ "num_cycles" := PInt 2 ]} : conf)).
  assert (Hc : load d ov
               = Ok (default ∅ ov
                     ∪ ({[ "all_channel_names" := stripped_lines example_channel_lines ]}
                        ∪ (default ∅ (processingOptions_json d) ∪ e)))).
  { unfold load.
    rewrite (load_conf_Some d ov e example_channel_lines eq_refl eq_refl).
    apply _validate_returns. by vm_compute. }
  eexists. split; [exact Hc|]. split.
  - exact (load_last_writer_wins d ov _ e example_channel_lines "num_cycles"
             eq_refl eq_refl Hc).
  - exact (load_last_writer_wins d ov _ e example_channel_lines
             "all_channel_names" eq_refl eq_refl Hc).
Defined.

(** X8: missing files.  Without [Experiment.json] loading fails with the
    ValueError naming it, whatever else is there; with it but without
    [channelNames.txt], with the ValueError of the channel names; an
    absent [processingOptions.json] is no error and loads like an empty
    one. *)
Theorem load_missing_files (d : data_dir) (overrides : option conf) :
  (Experiment_json d = None →
   load d overrides = Raise (ValueError (MissingConfigFile "Experiment.json")))
  ∧ (is_Some (Experiment_json d) → channelNames_txt d = None →
     load d overrides = Raise (ValueError MissingChannelNames))
  ∧ (processingOptions_json d = None →
     load d overrides
     = load {| Experiment_json := Experiment_json d;
               processingOptions_json := Some ∅;
               channelNames_txt := channelNames_txt d |} overrides).
Proof.
  unfold load, load_conf, _load_experiment_config, _load_processing_options,
    _load_channel_names, _load_json_config. repeat split.
  - by intros ->.
  - intros [e ->] ->. by destruct (processingOptions_json d).
  - intros ->. reflexivity.
Qed.

Lemma load_missing_files_witness :
  load {| Experiment_json := None; processingOptions_json := None;
          channelNames_txt := None |} None
  = Raise (ValueError (MissingConfigFile "Experiment.json"))
  ∧ load {| Experiment_json := Some example_experiment;
            processingOptions_json := None; channelNames_txt := None |} None
    = Raise (ValueError MissingChannelNames).
Proof.
  split.
  - exact (proj1 (load_missing_files
                    {| Experiment_json := None; processingOptions_json := None;
                       channelNames_txt := None |} None) eq_refl).
  - exact (proj1 (proj2 (load_missing_files
                           {| Experiment_json := Some example_experiment;
                              processingOptions_json := None;
                              channelNames_txt := None |} None))
             (ex_intro _ example_experiment eq_refl) eq_refl).
Defined.
End Layers.

(** ** Channel lookups on a loaded configuration *)

Section ChannelLookups.
Import Config.
Local Open Scope list_scope.

Lemma existsb_py_str_eq (name : string) (names : list pyval) :
  existsb (py_str_eq name) names = true ↔ PStr name ∈ names.
Proof.
  rewrite list_index_existsb. split.
  - intros [i [Hi _]%list_index_Some]. by eapply list_elem_of_lookup_2.
  - intros Hin. induction names as [|v names IH]; [by apply elem_of_nil in Hin|].
    simpl. destruct (py_str_eq name v) eqn:E; [eauto|].
    apply elem_of_cons in Hin as [Hv|Hin].
    + subst v. simpl in E. by rewrite String.eqb_refl in E.
    + destruct (IH Hin) as [i ->]. eauto.
Qed.

(** What validation establishes about the channel count. *)
Lemma validated_channel_count (c c' : conf) :
  _validate c = Ok c' →
  ∃ (names nv : pyval) (L n m : Z),
    channel_names c = Ok names ∧ py_len names = Ok L
    ∧ n_cycles c = Ok nv ∧ as_int nv = Some n
    ∧ n_channels_per_cycle c = Ok m
    ∧ L = n * m ∧ 0 ≤ m.
Proof.
  intros Hv. apply _validate_inv in Hv as [(L & e & HL & He & Hint) _].
  unfold _n_actual_channels in HL. peel HL.
  unfold _n_expected_channels in He. peel He.
  assert (0 ≤ a1) as Hm.
  { unfold n_channels_per_cycle in Ha1. peel Ha1.
    destruct a2; simpl in Ha1; try discriminate; injection Ha1 as <-; lia. }
  unfold py_mul in He. simpl in He.
  destruct (as_int a0) as [x|] eqn:Hx.
  - injection He as <-. simpl in Hint. injection Hint as <-.
    by exists a, a0, (x * a1), x, a1.
  - unfold py_repeat in He.
    destruct a0; simpl in *; try discriminate; injection He as <-; discriminate.
Qed.

Lemma divide_position_Ok (i n cycle ch : Z) (nv : pyval) :
  as_int nv = Some n →
  divide_position i nv = Ok (cycle, ch) →
  n ≠ 0 ∧ cycle = i / n ∧ ch = i mod n.
Proof.
  intros Hn. unfold divide_position, py_int_floordiv, py_int_mod. rewrite Hn.
  destruct (n =? 0) eqn:E; [discriminate|]. simpl. intros [= <- <-].
  by apply Z.eqb_neq in E.
Qed.

(** The lookup of a name, on the channel-name list of a validated
    configuration, in terms of the position of its first occurrence. *)
Lemma validated_lookup (c : conf) (names : list pyval) (name : string) :
  _validate c = Ok c →
  channel_names c = Ok (PList names) →
  ∃ (nv : pyval) (n m : Z),
    n_cycles c = Ok nv ∧ as_int nv = Some n ∧ n_channels_per_cycle c = Ok m
    ∧ Z.of_nat (length names) = n * m ∧ 0 ≤ m
    ∧ get_channel_coordinates c name
      = match list_index name names with
        | None => Raise (ValueError ChannelNotConfigured)
        | Some i => Ok (Z.of_nat i / n, Z.of_nat i mod n)
        end.
Proof.
  intros Hv Hnames.
  destruct (validated_channel_count c c Hv)
    as (nsv & nv & L & n & m & Hns & HL & Hnv & Hn & Hm & HLnm & Hm0).
  rewrite Hnames in Hns. injection Hns as <-. injection HL as <-.
  exists nv, n, m. repeat split; try done.
  rewrite (get_channel_coordinates_list c names nv name Hnames Hnv).
  destruct (list_index name names) as [i|] eqn:Hi; [|done].
  apply divide_position_int; [done|].
  apply list_index_Some in Hi as [Hi%lookup_lt_Some _]. nia.
Qed.

(** X12: a name that is not in the channel-name list is reported as not
    configured before the cycle count is read, so whatever the rest of the
    mapping holds; on a validated configuration every name of the list has
    coordinates. *)
Theorem get_channel_coordinates_configured_names
    (c : conf) (names : list pyval) (name : string) :
  channel_names c = Ok (PList names) →
  (PStr name ∉ names →
   get_channel_coordinates c name = Raise (ValueError ChannelNotConfigured))
  ∧ (∀ r, get_channel_coordinates c name = Ok r → PStr name ∈ names)
  ∧ (_validate c = Ok c → PStr name ∈ names →
     ∃ r, get_channel_coordinates c name = Ok r).
Proof.
  intros Hnames.
  assert (Hun : get_channel_coordinates c name
                = if existsb (py_str_eq name) names
                  then (names ← channel_names c;
                        i ← py_index names name;
                        n ← n_cycles c;
                        cycle_index ← py_int_floordiv i n;
                        n ← n_cycles c;
                        ch_index ← py_int_mod i n;
                        Ok (cycle_index, ch_index))
                  else Raise (ValueError ChannelNotConfigured)).
  { unfold get_channel_coordinates. rewrite Hnames at 1.
    cbn [mbind res_mbind res_bind py_str_in].
    by destruct (existsb _ names). }
  split; [|split].
  - intros Hnot. rewrite Hun.
    destruct (existsb _ names) eqn:E; [|done].
    by apply existsb_py_str_eq in E.
  - intros r. rewrite Hun.
    destruct (existsb _ names) eqn:E; [|discriminate].
    intros _. by apply existsb_py_str_eq.
  - intros Hv Hin.
    destruct (validated_lookup c names name Hv Hnames)
      as (nv & n & m & _ & _ & _ & _ & _ & ->).
    apply existsb_py_str_eq, list_index_existsb in Hin as [i ->]. eauto.
Qed.

Lemma get_channel_coordinates_configured_names_witness :
  get_channel_coordinates example_loaded "CD45"
  = Raise (ValueError ChannelNotConfigured)
  ∧ ∃ r, get_channel_coordinates example_loaded "Ki67" = Ok r.
Proof.
  pose proof (get_channel_coordinates_configured_names example_loaded
                [PStr "DAPI"; PStr "CD4"; PStr "CD8"; PStr "Ki67"]) as H.
  split.
  - apply (H "CD45"); [by vm_compute|].
    intros Hin. repeat (apply elem_of_cons in Hin as [[=]|Hin]).
    by apply elem_of_nil in Hin.
  - apply (H "Ki67"); [by vm_compute| |].
    + apply _validate_returns. by vm_compute.
    + do 3 apply list_elem_of_further. apply list_elem_of_here.
Defined.

(** X13: on a validated configuration the returned pair lies in a grid that
    is the transpose of the configured one: the channel index is below
    [n_cycles] and the cycle index below [n_channels_per_cycle]. *)
Theorem get_channel_coordinates_bounds
    (c : conf) (names : list pyval) (name : string) (cycle ch : Z) :
  _validate c = Ok c →
  channel_names c = Ok (PList names) →
  get_channel_coordinates c name = Ok (cycle, ch) →
  ∃ (nv : pyval) (n m : Z),
    n_cycles c = Ok nv ∧ as_int nv = Some n
    ∧ n_channels_per_cycle c = Ok m
    ∧ 0 ≤ ch < n ∧ 0 ≤ cycle < m.
Proof.
  intros Hv Hnames Hr.
  destruct (validated_lookup c names name Hv Hnames)
    as (nv & n & m & Hnv & Hn & Hm & HL & Hm0 & Hgcc).
  rewrite Hgcc in Hr.
  destruct (list_index name names) as [i|] eqn:Hi; [|discriminate].
  injection Hr as <- <-.
  apply list_index_Some in Hi as [Hi%lookup_lt_Some _].
  exists nv, n, m. repeat split; try done.
  all: assert (0 < n) by nia.
  - by apply Z.mod_pos_bound.
  - by apply Z.mod_pos_bound.
  - apply Z.div_pos; lia.
  - apply Z.div_lt_upper_bound; lia.
Qed.

Lemma get_channel_coordinates_bounds_witness :
  ∃ (nv : pyval) (n m : Z),
    n_cycles example_loaded = Ok nv ∧ as_int nv = Some n
    ∧ n_channels_per_cycle example_loaded = Ok m
    ∧ 0 ≤ 1 < n ∧ 0 ≤ 1 < m.
Proof.
  apply (get_channel_coordinates_bounds example_loaded
           [PStr "DAPI"; PStr "CD4"; PStr "CD8"; PStr "Ki67"] "Ki67" 1 1).
  - apply _validate_returns. by vm_compute.
  - by vm_compute.
  - by vm_compute.
Defined.

(** X14: the position of a name is recovered from its coordinates as
    [cycle * n_cycles + channel], and no two names have the same
    coordinates. *)
Theorem get_channel_coordinates_round_trip
    (c : conf) (names : list pyval) (nv : pyval) (n : Z) (name : string)
    (cycle ch : Z) :
  channel_names c = Ok (PList names) →
  n_cycles c = Ok nv →
  as_int nv = Some n →
  get_channel_coordinates c name = Ok (cycle, ch) →
  0 ≤ cycle * n + ch
  ∧ names !! Z.to_nat (cycle * n + ch) = Some (PStr name)
  ∧ ∀ other : string,
      get_channel_coordinates c other = Ok (cycle, ch) → other = name.
Proof.
  intros Hnames Hnv Hn Hr.
  rewrite (get_channel_coordinates_list c names nv name Hnames Hnv) in Hr.
  destruct (list_index name names) as [i|] eqn:Hi; [|discriminate].
  destruct (divide_position_Ok _ n _ _ nv Hn Hr) as (Hn0 & -> & ->).
  apply list_index_Some in Hi as [Hi _].
  assert (Hi' : Z.of_nat i / n * n + Z.of_nat i mod n = Z.of_nat i).
  { pose proof (Z.div_mod (Z.of_nat i) n Hn0). lia. }
  rewrite Hi'. split; [lia|]. split; [by rewrite Nat2Z.id|].
  intros other Ho.
  rewrite (get_channel_coordinates_list c names nv other Hnames Hnv) in Ho.
  destruct (list_index other names) as [j|] eqn:Hj; [|discriminate].
  destruct (divide_position_Ok _ n _ _ nv Hn Ho) as (_ & Hq & Hm).
  apply list_index_Some in Hj as [Hj _].
  assert (j = i) as ->.
  { pose proof (Z.div_mod (Z.of_nat j) n Hn0). lia. }
  rewrite Hi in Hj. by injection Hj.
Qed.

Lemma get_channel_coordinates_round_trip_witness :
  [PStr "DAPI"; PStr "CD4"; PStr "CD8"; PStr "Ki67"] !! Z.to_nat (1 * 2 + 1)
  = Some (PStr "Ki67").
Proof.
  apply (get_channel_coordinates_round_trip example_loaded
           [PStr "DAPI"; PStr "CD4"; PStr "CD8"; PStr "Ki67"] (PInt 2) 2 "Ki67"
           1 1); by vm_compute.
Defined.
End ChannelLookups.

(** ** Cytometry reference *)

Section Cytometry.
Import Config.

(** X15: the nucleus channel name is required and the membrane channel name is
    optional.  Without the nucleus entry the property fails with its
    KeyError.  With a nucleus name and a membrane entry that is absent,
    [null] or empty text, the membrane coordinates are [None] and only the
    nucleus name is looked up; with a membrane name both are looked up, the
    nucleus first.  The parameters are passed on, [None] when absent. *)
Theorem cytometry_reference_membrane_optional (c : conf) :
  (c !! "cytometry_nuclei_channel_name" = None →
   cytometry_reference c = Raise (KeyError "cytometry_nuclei_channel_name"))
  ∧ ∀ nuc : string,
      c !! "cytometry_nuclei_channel_name" = Some (PStr nuc) →
      (c !! "cytometry_membrane_channel_name" = None
       ∨ c !! "cytometry_membrane_channel_name" = Some PNone
       ∨ c !! "cytometry_membrane_channel_name" = Some (PStr "") →
       cytometry_reference c
       = (λ xy, (xy, None, get c "cytometry_params"))
           <$> get_channel_coordinates c nuc)
      ∧ (∀ mem : string,
           c !! "cytometry_membrane_channel_name" = Some (PStr mem) →
           mem ≠ "" →
           cytometry_reference c
           = (xy ← get_channel_coordinates c nuc;
              m ← get_channel_coordinates c mem;
              Ok (xy, Some m, get c "cytometry_params"))).
Proof.
  unfold cytometry_reference, getitem, get. split.
  - by intros ->.
  - intros nuc ->. cbn [mbind res_mbind res_bind get_channel_coordinates_value].
    split.
    + intros [-> | [-> | ->]]; unfold default; cbn [from_option id py_truthy];
        by destruct (get_channel_coordinates c nuc).
    + intros mem -> Hmem. unfold default. cbn [from_option id py_truthy].
      assert (String.eqb mem "" = false) as -> by by apply String.eqb_neq.
      cbn [negb get_channel_coordinates_value].
      destruct (get_channel_coordinates c nuc); [|done].
      cbn [mbind res_mbind res_bind].
      by destruct (get_channel_coordinates c mem).
Qed.

Lemma cytometry_reference_membrane_optional_witness :
  cytometry_reference
    (<["cytometry_nuclei_channel_name" := PStr "DAPI"]> example_loaded)
  = Ok ((0, 0), None, PNone)
  ∧ cytometry_reference
      (<["cytometry_membrane_channel_name" := PStr "CD8"]>
         (<["cytometry_nuclei_channel_name" := PStr "DAPI"]> example_loaded))
    = Ok ((0, 0), Some (1, 0), PNone).
Proof.
  split.
  - pose proof (cytometry_reference_membrane_optional
                  (<["cytometry_nuclei_channel_name" := PStr "DAPI"]>
                     example_loaded)) as [_ H].
    destruct (H "DAPI") as [H' _]; [by vm_compute|].
    etrans; [apply H'; left; by vm_compute|]. by vm_compute.
  - pose proof (cytometry_reference_membrane_optional
                  (<["cytometry_membrane_channel_name" := PStr "CD8"]>
                     (<["cytometry_nuclei_channel_name" := PStr "DAPI"]>
                        example_loaded))) as [_ H].
    destruct (H "DAPI") as [_ H']; [by vm_compute|].
    etrans; [apply (H' "CD8"); [by vm_compute|discriminate]|]. by vm_compute.
Defined.
(** X16: a nucleus channel name that is not text is never one of the names
    read from the channel-names file, which are all text: the property
    fails with the ValueError of a channel that is not configured. *)
Theorem cytometry_reference_name_not_text
    (c : conf) (names : list string) (v : pyval) :
  channel_names c = Ok (PList (PStr <$> names)) →
  c !! "cytometry_nuclei_channel_name" = Some v →
  (∀ s, v ≠ PStr s) →
  cytometry_reference c = Raise (ValueError ChannelNotConfigured).
Proof.
  intros Hnames Hv Hnot. unfold cytometry_reference, getitem. rewrite Hv.
  cbn [mbind res_mbind res_bind].
  assert (get_channel_coordinates_value c v
          = Raise (ValueError ChannelNotConfigured)) as ->; [|done].
  assert (Hex : existsb (λ x, py_eq x v) (PStr <$> names) = false).
  { clear Hnames. induction names as [|s names IH]; [done|].
    rewrite fmap_cons. cbn [existsb]. rewrite IH.
    destruct v as [| | |t| | |]; try done. by destruct (Hnot t). }
  destruct v; try (by destruct (Hnot s));
    unfold get_channel_coordinates_value; rewrite Hnames;
    cbn [mbind res_mbind res_bind py_value_in]; by rewrite Hex.
Qed.

Lemma cytometry_reference_name_not_text_witness :
  cytometry_reference
    (<["cytometry_nuclei_channel_name" := PInt 1]> example_loaded)
  = Raise (ValueError ChannelNotConfigured).
Proof.
  apply (cytometry_reference_name_not_text _ ["DAPI"; "CD4"; "CD8"; "Ki67"]
           (PInt 1)); [by vm_compute|by vm_compute|discriminate].
Defined.
End Cytometry.

(** ** Tiles *)

Section Tiles.
Import Config.
Variable tiling : tiling_module.

(** X17: the range check has no lower bound: every tile index below
    [n_tiles_per_region], the negative ones included, is handed to the
    tiling strategy of the configured mode as it is. *)
Theorem get_tile_coordinates_below_range
    (c : conf) (w h tile_index : Z) (mode : pyval) :
  region_width c = Ok (PInt w) →
  region_height c = Ok (PInt h) →
  tiling_mode c = Ok mode →
  tile_index < w * h →
  get_tile_coordinates tiling c tile_index
  = (t ← get_tiling_by_name tiling mode;
     coordinates_from_index tiling t tile_index (PInt w) (PInt h)).
Proof.
  intros Hw Hh Hmode Hi. unfold get_tile_coordinates, n_tiles_per_region.
  rewrite Hw, Hh; simpl.
  assert ((w * h <=? tile_index) = false) as -> by by apply Z.leb_gt.
  by rewrite Hmode.
Qed.

Lemma for_each_all_nil {A B} (f : A → res (list B)) (l : list A) :
  (∀ x, x ∈ l → f x = Ok []) →
  ∃ r, for_each f l = Ok r ∧ List.concat r = [].
Proof.
  induction l as [|x l IH]; intros H; simpl; [by exists []|].
  rewrite H by apply list_elem_of_here.
  destruct IH as (r & -> & Hr).
  { intros y Hy. apply H. by apply list_elem_of_further. }
  exists ([] :: r). by split.
Qed.

(** X18: nothing to enumerate.  With no region index [get_tile_indices]
    returns the empty list without reading the region dimensions or the
    tiling mode; with integer region dimensions whose product is zero or
    negative it returns the empty list without resolving the tiling
    mode. *)
Theorem get_tile_indices_empty (c : conf) :
  (region_indexes c = Ok [] → get_tile_indices tiling c = Ok [])
  ∧ (∀ (regs : list Z) (w h : Z),
       region_indexes c = Ok regs →
       region_width c = Ok (PInt w) →
       region_height c = Ok (PInt h) →
       w * h ≤ 0 →
       get_tile_indices tiling c = Ok []).
Proof.
  unfold get_tile_indices. split.
  - by intros ->.
  - intros regs w h -> Hw Hh Hle. cbn [mbind res_mbind res_bind].
    destruct (for_each_all_nil (region_tile_indices tiling c) regs)
      as (r & -> & Hr).
    + intros ireg _. unfold region_tile_indices, n_tiles_per_region.
      rewrite Hw, Hh. simpl. by rewrite range_empty.
    + cbn [mbind res_mbind res_bind]. by rewrite Hr.
Qed.
End Tiles.

Lemma get_tile_coordinates_below_range_witness :
  Config.get_tile_coordinates snake_tiling example_loaded (-1)
  = Ok (PInt 0, PInt (-1)).
Proof.
  rewrite (get_tile_coordinates_below_range snake_tiling example_loaded 2 2 (-1)
             (PStr "snake")); [reflexivity|by vm_compute..|lia].
Defined.

Lemma get_tile_indices_empty_witness :
  Config.get_tile_indices snake_tiling
    (<["regIdx" := PList []]> (<["tiling_mode" := PStr "spiral"]> example_loaded))
  = Ok []
  ∧ Config.get_tile_indices snake_tiling
      (<["region_height" := PInt 0]>
         (<["tiling_mode" := PStr "spiral"]> example_loaded))
    = Ok [].
Proof.
  split.
  - apply (proj1 (get_tile_indices_empty snake_tiling _)). by vm_compute.
  - apply (proj2 (get_tile_indices_empty snake_tiling _) [0; 1; 2] 2 0);
      [by vm_compute..|lia].
Defined.

(** ** What validation checks, and nothing more *)

Section Validation.
Import Config.




(** X19: on a validated configuration [tile_dims] returns exactly when the
    z-plane count and the tile height and width are present, and then its
    cycle count times its channel count is the number of channel names. *)
Theorem tile_dims_of_validated (c : conf) :
  _validate c = Ok c →
  (returns (tile_dims c) = true
   ↔ is_Some (c !! "num_z_planes") ∧ is_Some (c !! "tile_height")
     ∧ is_Some (c !! "tile_width"))
  ∧ ∀ td : TileDims,
      tile_dims c = Ok td →
      ∃ n L : Z,
        as_int (cycles td) = Some n
        ∧ _n_actual_channels c = Ok L
        ∧ n * channels td = L.
Proof.
  intros Hv.
  destruct (validated_channel_count c c Hv)
    as (names & nv & L & n & m & Hns & HL & Hnv & Hn & Hm & HLnm & _).
  unfold tile_dims, n_z_planes, tile_height, tile_width, getitem.
  rewrite Hnv, Hm. cbn [mbind res_mbind res_bind]. split.
  - destruct (c !! "num_z_planes"), (c !! "tile_height"), (c !! "tile_width");
      cbn; split; try done; intros (? & ? & ?); by (apply is_Some_None in H
        || apply is_Some_None in H0 || apply is_Some_None in H1).
  - intros td Htd. exists n, L. split; [|split].
    + destruct (c !! "num_z_planes"), (c !! "tile_height"), (c !! "tile_width");
        cbn in Htd; try discriminate. by injection Htd as <-.
    + unfold _n_actual_channels. by rewrite Hns.
    + destruct (c !! "num_z_planes"), (c !! "tile_height"), (c !! "tile_width");
        cbn in Htd; try discriminate. injection Htd as <-. simpl. lia.
Qed.

Lemma tile_dims_of_validated_witness :
  returns (tile_dims example_loaded) = false
  ∧ returns
      (tile_dims
         (<["num_z_planes" := PInt 5]>
            (<["tile_height" := PInt 1008]>
               (<["tile_width" := PInt 1344]> example_loaded)))) = true.
Proof.
  split; [by vm_compute|].
  pose (c := <["num_z_planes" := PInt 5]>
               (<["tile_height" := PInt 1008]>
                  (<["tile_width" := PInt 1344]> example_loaded))).
  assert (Hv : _validate c = Ok c) by (apply _validate_returns; by vm_compute).
  apply (proj1 (tile_dims_of_validated c Hv)).
  repeat split; eexists; by vm_compute.
Defined.
End Validation.

(** ** Integer index fields *)

Section IntegerIndexes.
Import Config.
Local Open Scope list_scope.

Lemma validate_one_based_index_int_default (c : conf) (k : string) (x : Z) :
  c !! k = Some (PInt x) →
  validate_one_based_index c k PNone = check_index (k, x).
Proof.
  intros Hk. unfold validate_one_based_index, getitem, check_index. rewrite Hk.
  simpl. by destruct (x <=? 0).
Qed.

Lemma validate_one_based_index_int (c : conf) (k : string) (x : Z) :
  validate_one_based_index c k (PInt x) = check_index (k, x).
Proof.
  unfold validate_one_based_index, check_index. simpl. by destruct (x <=? 0).
Qed.

Lemma for_each_check_index (l : list (string * Z)) :
  for_each check_index l
  = match List.find (λ kx, kx.2 <=? 0) l with
    | Some kx => Raise (ValueError (NotOneBasedIndex kx.1))
    | None => Ok ((λ _, ()) <$> l)
    end.
Proof.
  induction l as [|kx l IH]; [done|]. simpl. unfold check_index at 1.
  destruct (kx.2 <=? 0); [done|]. rewrite IH.
  by destruct (List.find _ l).
Qed.

(** X11: with a matching channel count and integers in the five index fields,
    validation checks the fields in the order drift cycle, drift channel,
    focus cycle, focus channel, then the region entries as listed: it
    raises the ValueError naming the first one that is zero or negative, and
    returns the configuration when there is none. *)
Theorem validate_integer_indexes
    (c : conf) (L : Z) (e : pyval) (x1 x2 x3 x4 : Z) (regs : list Z) :
  _n_actual_channels c = Ok L →
  _n_expected_channels c = Ok e →
  as_int e = Some L →
  c !! "driftCompReferenceCycle" = Some (PInt x1) →
  c !! "drift_comp_channel" = Some (PInt x2) →
  c !! "bestFocusReferenceCycle" = Some (PInt x3) →
  c !! "best_focus_channel" = Some (PInt x4) →
  c !! "regIdx" = Some (PList (PInt <$> regs)) →
  _validate c
  = match List.find (λ kx : string * Z, kx.2 <=? 0)
            ([("driftCompReferenceCycle", x1); ("drift_comp_channel", x2);
              ("bestFocusReferenceCycle", x3); ("best_focus_channel", x4)]
             ++ ((λ r, ("regIdx", r)) <$> regs)) with
    | Some kx => Raise (ValueError (NotOneBasedIndex kx.1))
    | None => Ok c
    end.
Proof.
  intros HL He Hint H1 H2 H3 H4 Hreg.
  unfold _validate. rewrite HL, He. cbn [mbind res_mbind res_bind].
  assert (py_int_ne L e = false) as ->.
  { unfold py_int_ne. rewrite Hint. by rewrite Z.eqb_refl. }
  cbn [for_each].
  rewrite (validate_one_based_index_int_default c _ x1 H1),
    (validate_one_based_index_int_default c _ x2 H2),
    (validate_one_based_index_int_default c _ x3 H3),
    (validate_one_based_index_int_default c _ x4 H4).
  unfold getitem. rewrite Hreg. cbn [mbind res_mbind res_bind py_iter].
  assert (for_each (λ ireg, validate_one_based_index c "regIdx" ireg)
            (PInt <$> regs)
          = for_each check_index ((λ r, ("regIdx", r)) <$> regs)) as ->.
  { clear Hreg. induction regs as [|r regs IH]; [done|].
    rewrite !fmap_cons. cbn [for_each].
    by rewrite validate_one_based_index_int, IH. }
  rewrite for_each_check_index.
  cbn [app List.find]. unfold check_index. cbn [fst snd].
  destruct (x1 <=? 0); [done|]. destruct (x2 <=? 0); [done|].
  destruct (x3 <=? 0); [done|]. destruct (x4 <=? 0); [done|].
  cbn [mbind res_mbind res_bind].
  by destruct (List.find _ _).
Qed.

Lemma validate_integer_indexes_witness :
  _validate (<["regIdx" := PList (PInt <$> [2; 0; -1])]> example_loaded)
  = Raise (ValueError (NotOneBasedIndex "regIdx"))
  ∧ _validate (<["best_focus_channel" := PInt 0]>
                 (<["regIdx" := PList (PInt <$> [2; 0; -1])]> example_loaded))
    = Raise (ValueError (NotOneBasedIndex "best_focus_channel")).
Proof.
  split.
  - etrans;
      [apply (validate_integer_indexes _ 4 (PInt 4) 1 1 1 1 [2; 0; -1]);
       by vm_compute|].
    reflexivity.
  - etrans;
      [apply (validate_integer_indexes _ 4 (PInt 4) 1 1 1 0 [2; 0; -1]);
       by vm_compute|].
    reflexivity.
Defined.

(** X9: blank lines do not count: when the overrides do not replace the
    channel names, a configuration loads only if the number of non-blank
    lines of the channel-names file is [n_cycles * n_channels_per_cycle]. *)
Theorem load_counts_nonblank_lines
    (d : data_dir) (overrides : option conf) (c e : conf) (lines : list string) :
  Experiment_json d = Some e →
  channelNames_txt d = Some lines →
  overrides ≫= (λ o, o !! "all_channel_names") = None →
  load d overrides = Ok c →
  ∃ (nv : pyval) (n m : Z),
    n_cycles c = Ok nv ∧ as_int nv = Some n
    ∧ n_channels_per_cycle c = Ok m
    ∧ Z.of_nat (length (filter (λ l, strip l ≠ "") lines)) = n * m.
Proof.
  intros He Hl Hov [Hc Hv]%load_Ok_validated.
  destruct (validated_channel_count c c Hv)
    as (names & nv & L & n & m & Hns & HL & Hnv & Hn & Hm & HLnm & _).
  exists nv, n, m. repeat split; try done.
  rewrite (load_conf_Some d overrides e lines He Hl) in Hc. injection Hc as Hc.
  unfold channel_names, getitem in Hns. rewrite <-Hc in Hns.
  rewrite !lookup_union, !option_union_first in Hns.
  assert (default ∅ overrides !! "all_channel_names" = None) as Hnone.
  { destruct overrides; [exact Hov|apply lookup_empty]. }
  rewrite Hnone, lookup_singleton_eq in Hns. injection Hns as <-.
  unfold stripped_lines in HL. cbn [py_len] in HL. injection HL as <-.
  by rewrite !length_fmap in HLnm.
Qed.

Lemma load_counts_nonblank_lines_witness :
  ∃ (nv : pyval) (n m : Z),
    n_cycles example_loaded = Ok nv ∧ as_int nv = Some n
    ∧ n_channels_per_cycle example_loaded = Ok m
    ∧ Z.of_nat (length (filter (λ l, strip l ≠ "") example_channel_lines))
      = n * m.
Proof.
  apply (load_counts_nonblank_lines example_dir None example_loaded
           example_experiment example_channel_lines eq_refl eq_refl eq_refl).
  unfold example_dir. rewrite load_dir_of.
  apply _validate_returns. by vm_compute.
Defined.
End IntegerIndexes.

(** ** Microscope parameters *)

Section Microscope.
Import Config.
Local Open Scope list_scope.

(** Closes [is_Some (c !! k')] for a [k'] in a literal list of keys that
    were each found present. *)
Ltac present_key H :=
  repeat (apply elem_of_cons in H as [->|H]; [eauto|]);
  by apply elem_of_nil in H.

(** X20: [microscope_params] returns the six stored values as they are when
    all six keys are present, and otherwise fails with the KeyError of the
    first missing key in the order magnification, numerical aperture,
    z pitch, lateral resolution, objective type, emission wavelengths. *)
Theorem microscope_params_keys (c : conf) :
  match microscope_params c with
  | Ok (mag, na, axial, lateral, objective, emission) =>
      (λ k, c !! k) <$> microscope_keys
      = Some <$> [mag; na; axial; lateral; objective; emission]
  | Raise e =>
      ∃ (before : list string) (k : string) (after : list string),
        microscope_keys = before ++ k :: after
        ∧ e = KeyError k ∧ c !! k = None
        ∧ ∀ k', k' ∈ before → is_Some (c !! k')
  end.
Proof.
  unfold microscope_params, getitem, microscope_keys.
  destruct (c !! "magnification") as [v1|] eqn:H1; cbn [mbind res_mbind res_bind].
  2:{ exists [], "magnification", (tail microscope_keys).
      repeat split; try done. by intros k' ?%elem_of_nil. }
  destruct (c !! "numerical_aperture") as [v2|] eqn:H2;
    cbn [mbind res_mbind res_bind].
  2:{ exists (take 1 microscope_keys), "numerical_aperture",
        (drop 2 microscope_keys).
      repeat split; try done. intros k' Hk'. cbn in Hk'. present_key Hk'. }
  destruct (c !! "z_pitch") as [v3|] eqn:H3; cbn [mbind res_mbind res_bind].
  2:{ exists (take 2 microscope_keys), "z_pitch", (drop 3 microscope_keys).
      repeat split; try done. intros k' Hk'. cbn in Hk'. present_key Hk'. }
  destruct (c !! "per_pixel_XY_resolution") as [v4|] eqn:H4;
    cbn [mbind res_mbind res_bind].
  2:{ exists (take 3 microscope_keys), "per_pixel_XY_resolution",
        (drop 4 microscope_keys).
      repeat split; try done. intros k' Hk'. cbn in Hk'. present_key Hk'. }
  destruct (c !! "objectiveType") as [v5|] eqn:H5; cbn [mbind res_mbind res_bind].
  2:{ exists (take 4 microscope_keys), "objectiveType", (drop 5 microscope_keys).
      repeat split; try done. intros k' Hk'. cbn in Hk'. present_key Hk'. }
  destruct (c !! "emission_wavelengths") as [v6|] eqn:H6;
    cbn [mbind res_mbind res_bind].
  2:{ exists (take 5 microscope_keys), "emission_wavelengths", [].
      repeat split; try done. intros k' Hk'. cbn in Hk'. present_key Hk'. }
  cbn. by rewrite H1, H2, H3, H4, H5, H6.
Qed.
End Microscope.
